(** * The whisper JNI handle bridge (android/app/src/main/cpp/whisper_jni.cpp)

    A shallow embedding of the three JNI entry points [whisperInit],
    [whisperTranscribe] and [whisperFree] of [WhisperManager], and the
    properties of the bridge that follow from the code.

    The bridge calls into two external collaborators:
    - the JNI environment ([JNIEnv]): Java strings and float arrays live in
      a heap of objects named by references; the [Get...]/[Release...]
      pairs borrow native views of them;
    - the whisper engine ([whisper.h]), which is not part of this
      repository and is taken as a parameter (class [Whisper]).

    Every call that crosses either boundary is recorded, in order, in the
    [trace] of the world. *)

From Stdlib Require Import ZArith SpecFloat.
From stdpp Require Import gmap strings list.
From Equations Require Import Equations.

Local Open Scope Z_scope.

(** ** Scalar types *)

(** [jlong] is a 64-bit signed integer, a native pointer a 64-bit address
    ([0] is [nullptr]), [jsize] and [int] are integers, [jfloat] an IEEE
    single whose value the bridge never inspects. Java objects are named
    by references; a null or dangling reference is one the heap does not
    map. *)
Abbreviation jlong := Z (only parsing).
Abbreviation jsize := Z (only parsing).
Abbreviation ptr := Z (only parsing).
Abbreviation jref := positive (only parsing).
Abbreviation jfloat := spec_float (only parsing).

#[global] Instance spec_float_eq_dec : EqDecision spec_float.
Proof. solve_decision. Defined.

(** [reinterpret_cast<jlong>(ctx)]: the address, read as a signed 64-bit
    integer. *)
Definition jlong_of_ptr (p : ptr) : jlong := (p + 2 ^ 63) mod 2 ^ 64 - 2 ^ 63.

(** [reinterpret_cast<struct whisper_context *>(context_ptr)]: the 64 bits
    of the handle, read as an address. *)
Definition ptr_of_jlong (h : jlong) : ptr := h mod 2 ^ 64.

(** ** The part of [whisper.h] the bridge uses *)

Inductive whisper_sampling_strategy : Type :=
| WHISPER_SAMPLING_GREEDY
| WHISPER_SAMPLING_BEAM_SEARCH.

(** [struct whisper_context_params]: the field the bridge writes, and the
    others, whose declaration is not in this repository. *)
Record whisper_context_params {O : Type} := mk_whisper_context_params {
  use_gpu : bool;
  cparams_other : O
}.
Arguments whisper_context_params : clear implicits.
Arguments mk_whisper_context_params {O}.

(** [struct whisper_full_params]: the fields the bridge writes, the
    sampling strategy, and the others. A [const char *] is modelled by the
    characters it points to. *)
Record whisper_full_params {O : Type} := mk_whisper_full_params {
  strategy : whisper_sampling_strategy;
  n_threads : Z;
  translate : bool;
  no_timestamps : bool;
  single_segment : bool;
  print_special : bool;
  print_progress : bool;
  print_realtime : bool;
  print_timestamps : bool;
  language : string;
  fparams_other : O
}.
Arguments whisper_full_params : clear implicits.
Arguments mk_whisper_full_params {O}.

Section FieldUpdates.
Context {O : Type}.

Definition set_use_gpu (b : bool) (p : whisper_context_params O) :=
  mk_whisper_context_params b (cparams_other p).

Definition set_n_threads (n : Z) (p : whisper_full_params O) :=
  mk_whisper_full_params (strategy p) n (translate p) (no_timestamps p)
    (single_segment p) (print_special p) (print_progress p)
    (print_realtime p) (print_timestamps p) (language p) (fparams_other p).

Definition set_translate (b : bool) (p : whisper_full_params O) :=
  mk_whisper_full_params (strategy p) (n_threads p) b (no_timestamps p)
    (single_segment p) (print_special p) (print_progress p)
    (print_realtime p) (print_timestamps p) (language p) (fparams_other p).

Definition set_no_timestamps (b : bool) (p : whisper_full_params O) :=
  mk_whisper_full_params (strategy p) (n_threads p) (translate p) b
    (single_segment p) (print_special p) (print_progress p)
    (print_realtime p) (print_timestamps p) (language p) (fparams_other p).

Definition set_single_segment (b : bool) (p : whisper_full_params O) :=
  mk_whisper_full_params (strategy p) (n_threads p) (translate p)
    (no_timestamps p) b (print_special p) (print_progress p)
    (print_realtime p) (print_timestamps p) (language p) (fparams_other p).

Definition set_print_special (b : bool) (p : whisper_full_params O) :=
  mk_whisper_full_params (strategy p) (n_threads p) (translate p)
    (no_timestamps p) (single_segment p) b (print_progress p)
    (print_realtime p) (print_timestamps p) (language p) (fparams_other p).

Definition set_print_progress (b : bool) (p : whisper_full_params O) :=
  mk_whisper_full_params (strategy p) (n_threads p) (translate p)
    (no_timestamps p) (single_segment p) (print_special p) b
    (print_realtime p) (print_timestamps p) (language p) (fparams_other p).

Definition set_print_realtime (b : bool) (p : whisper_full_params O) :=
  mk_whisper_full_params (strategy p) (n_threads p) (translate p)
    (no_timestamps p) (single_segment p) (print_special p)
    (print_progress p) b (print_timestamps p) (language p)
    (fparams_other p).

Definition set_print_timestamps (b : bool) (p : whisper_full_params O) :=
  mk_whisper_full_params (strategy p) (n_threads p) (translate p)
    (no_timestamps p) (single_segment p) (print_special p)
    (print_progress p) (print_realtime p) b (language p) (fparams_other p).

Definition set_language (s : string) (p : whisper_full_params O) :=
  mk_whisper_full_params (strategy p) (n_threads p) (translate p)
    (no_timestamps p) (single_segment p) (print_special p)
    (print_progress p) (print_realtime p) (print_timestamps p) s
    (fparams_other p).
End FieldUpdates.

(** The engine behind [whisper.h]. Its entry points are deterministic
    functions of their arguments and of the engine's own state; pointer
    arguments declared [const] are passed as the data they point to, which
    the engine can read but not write. *)
Class Whisper := {
  engine_state : Type;
  cparams_rest : Type;
  fparams_rest : Type;
  (** [whisper_context_default_params()] *)
  engine_context_default_params : whisper_context_params cparams_rest;
  (** [whisper_init_from_file_with_params(path, cparams)]: the new context,
      or [0] when none could be constructed. *)
  engine_init :
    string → whisper_context_params cparams_rest → engine_state →
    ptr * engine_state;
  (** [whisper_full_default_params(strategy)] *)
  engine_full_default_params :
    whisper_sampling_strategy → whisper_full_params fparams_rest;
  (** [whisper_full(ctx, params, samples, n_samples)]: the status code. *)
  engine_full :
    ptr → whisper_full_params fparams_rest → list jfloat → Z →
    engine_state → Z * engine_state;
  (** [whisper_full_n_segments(ctx)] *)
  engine_n_segments : ptr → engine_state → Z;
  (** [whisper_full_get_segment_text(ctx, i)] *)
  engine_segment_text : ptr → Z → engine_state → string;
  (** [whisper_free(ctx)] *)
  engine_free : ptr → engine_state → engine_state
}.

(** ** The world the bridge runs in *)

(** What a Java reference can name. Text is kept as the sequence of bytes
    of its modified UTF-8 form, the same on both sides of the boundary. *)
Inductive jobject : Type :=
| JString (chars : string)
| JFloatArray (elems : list jfloat).

(** [__android_log_print] priorities and variadic arguments. *)
Inductive android_LogPriority : Type := ANDROID_LOG_INFO | ANDROID_LOG_ERROR.
Inductive log_arg : Type := ArgStr (s : string) | ArgInt (n : Z).

Section Bridge.
Context `{W : Whisper}.

(** One entry per call across a boundary, with its arguments and its
    result. *)
Inductive event : Type :=
| EvLog (prio : android_LogPriority) (tag fmt : string) (args : list log_arg)
| EvGetStringUTFChars (s : jref) (chars : string)
| EvReleaseStringUTFChars (s : jref) (chars : string)
| EvGetArrayLength (a : jref) (n : jsize)
| EvGetFloatArrayElements (a : jref) (elems : list jfloat)
| EvReleaseFloatArrayElements (a : jref) (elems : list jfloat) (mode : Z)
| EvNewStringUTF (chars : string) (r : jref)
| EvWhisperContextDefaultParams
| EvWhisperInit (path : string) (cparams : whisper_context_params cparams_rest)
    (ctx : ptr)
| EvWhisperFullDefaultParams (s : whisper_sampling_strategy)
| EvWhisperFull (ctx : ptr) (params : whisper_full_params fparams_rest)
    (samples : list jfloat) (n_samples : Z) (status : Z)
| EvWhisperNSegments (ctx : ptr) (n : Z)
| EvWhisperSegmentText (ctx : ptr) (i : Z) (text : string)
| EvWhisperFree (ctx : ptr).

(** Calls that enter the engine. *)
Definition is_engine_event (e : event) : bool :=
  match e with
  | EvWhisperContextDefaultParams | EvWhisperInit _ _ _
  | EvWhisperFullDefaultParams _ | EvWhisperFull _ _ _ _ _
  | EvWhisperNSegments _ _ | EvWhisperSegmentText _ _ _
  | EvWhisperFree _ => true
  | _ => false
  end.

(** Calls that read the output of an inference run. *)
Definition is_segment_read (e : event) : bool :=
  match e with
  | EvWhisperNSegments _ _ | EvWhisperSegmentText _ _ _ => true
  | _ => false
  end.

Definition is_free_event (e : event) : bool :=
  match e with EvWhisperFree _ => true | _ => false end.

Record World : Type := mk_World {
  (** the Java heap *)
  heap : gmap positive jobject;
  (** native string views handed out by [GetStringUTFChars] and not yet
      released, newest first *)
  utf_borrows : list (jref * string);
  (** native element buffers handed out by [GetFloatArrayElements] and
      not yet released, newest first *)
  float_borrows : list (jref * list jfloat);
  (** the engine's state: every context it holds *)
  engine : engine_state;
  (** the calls made so far, oldest first *)
  trace : list event
}.

Definition emit (e : event) (w : World) : World :=
  mk_World (heap w) (utf_borrows w) (float_borrows w) (engine w)
    (trace w ++ [e]).

Definition set_heap (h : gmap positive jobject) (w : World) : World :=
  mk_World h (utf_borrows w) (float_borrows w) (engine w) (trace w).

Definition set_utf_borrows (b : list (jref * string)) (w : World) : World :=
  mk_World (heap w) b (float_borrows w) (engine w) (trace w).

Definition set_float_borrows (b : list (jref * list jfloat)) (w : World)
  : World :=
  mk_World (heap w) (utf_borrows w) b (engine w) (trace w).

Definition set_engine (e : engine_state) (w : World) : World :=
  mk_World (heap w) (utf_borrows w) (float_borrows w) e (trace w).

(** Native code threads the world through its calls; a call whose
    behaviour JNI leaves undefined (a reference that names no object of
    the right class, the release of a view that was never handed out)
    has no result. The virtual machine is assumed not to run out of
    memory: a [Get...] or [New...] call on valid arguments succeeds. *)
Definition JNI (A : Type) : Type := World → option (A * World).

#[global] Instance JNI_ret : MRet JNI := λ A x w, Some (x, w).
#[global] Instance JNI_bind : MBind JNI := λ A B f m w,
  match m w with
  | Some (x, w') => f x w'
  | None => None
  end.

(** Take the first occurrence of [x] out of [l]. *)
Fixpoint take_out {A} `{EqDecision A} (x : A) (l : list A)
  : option (list A) :=
  match l with
  | [] => None
  | y :: l' =>
      if decide (x = y) then Some l'
      else match take_out x l' with
           | Some r => Some (y :: r)
           | None => None
           end
  end.

(** ** The JNI functions the bridge calls *)

(** [__android_log_print(prio, tag, fmt, ...)] *)
Definition __android_log_print (prio : android_LogPriority)
    (tag fmt : string) (args : list log_arg) : JNI unit := λ w,
  Some ((), emit (EvLog prio tag fmt args) w).

Definition LOG_TAG : string := "WhisperJNI".
Definition LOGI (fmt : string) (args : list log_arg) : JNI unit :=
  __android_log_print ANDROID_LOG_INFO LOG_TAG fmt args.
Definition LOGE (fmt : string) (args : list log_arg) : JNI unit :=
  __android_log_print ANDROID_LOG_ERROR LOG_TAG fmt args.

(** [env->GetStringUTFChars(s, nullptr)]: a native view of the characters
    of [s], outstanding until released. *)
Definition GetStringUTFChars (s : jref) : JNI string := λ w,
  match heap w !! s with
  | Some (JString chars) =>
      Some (chars,
            emit (EvGetStringUTFChars s chars)
              (set_utf_borrows ((s, chars) :: utf_borrows w) w))
  | _ => None
  end.

(** [env->ReleaseStringUTFChars(s, chars)] *)
Definition ReleaseStringUTFChars (s : jref) (chars : string) : JNI unit :=
  λ w,
  match take_out (s, chars) (utf_borrows w) with
  | Some rest =>
      Some ((), emit (EvReleaseStringUTFChars s chars)
                  (set_utf_borrows rest w))
  | None => None
  end.

(** [env->GetArrayLength(a)] *)
Definition GetArrayLength (a : jref) : JNI jsize := λ w,
  match heap w !! a with
  | Some (JFloatArray elems) =>
      let n := Z.of_nat (length elems) in
      Some (n, emit (EvGetArrayLength a n) w)
  | _ => None
  end.

(** [env->GetFloatArrayElements(a, nullptr)]: a native buffer holding the
    elements of [a], outstanding until released. *)
Definition GetFloatArrayElements (a : jref) : JNI (list jfloat) := λ w,
  match heap w !! a with
  | Some (JFloatArray elems) =>
      Some (elems,
            emit (EvGetFloatArrayElements a elems)
              (set_float_borrows ((a, elems) :: float_borrows w) w))
  | _ => None
  end.

Definition JNI_COMMIT : Z := 1.
Definition JNI_ABORT : Z := 2.

(** [env->ReleaseFloatArrayElements(a, elems, mode)]: mode [0] copies the
    buffer back into the array and frees it, [JNI_COMMIT] copies back and
    keeps it, [JNI_ABORT] frees it without copying back. *)
Definition ReleaseFloatArrayElements (a : jref) (elems : list jfloat)
    (mode : Z) : JNI unit := λ w,
  match take_out (a, elems) (float_borrows w), heap w !! a with
  | Some rest, Some (JFloatArray _) =>
      let copied := <[a := JFloatArray elems]> (heap w) in
      if decide (mode = 0) then
        Some ((), emit (EvReleaseFloatArrayElements a elems mode)
                    (set_float_borrows rest (set_heap copied w)))
      else if decide (mode = JNI_COMMIT) then
        Some ((), emit (EvReleaseFloatArrayElements a elems mode)
                    (set_heap copied w))
      else if decide (mode = JNI_ABORT) then
        Some ((), emit (EvReleaseFloatArrayElements a elems mode)
                    (set_float_borrows rest w))
      else None
  | _, _ => None
  end.

(** [env->NewStringUTF(chars)]: a new Java string. *)
Definition NewStringUTF (chars : string) : JNI jref := λ w,
  let r := fresh (dom (heap w)) in
  Some (r, emit (EvNewStringUTF chars r)
             (set_heap (<[r := JString chars]> (heap w)) w)).

(** ** The engine entry points, as calls *)

Definition whisper_context_default_params
  : JNI (whisper_context_params cparams_rest) := λ w,
  Some (engine_context_default_params, emit EvWhisperContextDefaultParams w).

Definition whisper_init_from_file_with_params (path : string)
    (cparams : whisper_context_params cparams_rest) : JNI ptr := λ w,
  let r := engine_init path cparams (engine w) in
  Some (r.1, emit (EvWhisperInit path cparams r.1) (set_engine r.2 w)).

Definition whisper_full_default_params (s : whisper_sampling_strategy)
  : JNI (whisper_full_params fparams_rest) := λ w,
  Some (engine_full_default_params s, emit (EvWhisperFullDefaultParams s) w).

Definition whisper_full (ctx : ptr) (params : whisper_full_params fparams_rest)
    (samples : list jfloat) (n_samples : Z) : JNI Z := λ w,
  let r := engine_full ctx params samples n_samples (engine w) in
  Some (r.1, emit (EvWhisperFull ctx params samples n_samples r.1)
               (set_engine r.2 w)).

Definition whisper_full_n_segments (ctx : ptr) : JNI Z := λ w,
  let n := engine_n_segments ctx (engine w) in
  Some (n, emit (EvWhisperNSegments ctx n) w).

Definition whisper_full_get_segment_text (ctx : ptr) (i : Z) : JNI string :=
  λ w,
  let text := engine_segment_text ctx i (engine w) in
  Some (text, emit (EvWhisperSegmentText ctx i text) w).

Definition whisper_free (ctx : ptr) : JNI unit := λ w,
  Some ((), emit (EvWhisperFree ctx) (set_engine (engine_free ctx (engine w)) w)).

(** ** The bridge *)

(** [whisperInit] (lines 12-35). *)
Definition Java_com_localwhisper_android_transcription_WhisperManager_whisperInit
    (model_path : jref) : JNI jlong :=
  path ← GetStringUTFChars model_path;
  LOGI "Loading model from: %s" [ArgStr path];;
  cparams ← whisper_context_default_params;
  let cparams := set_use_gpu true cparams in
  ctx ← whisper_init_from_file_with_params path cparams;
  ReleaseStringUTFChars model_path path;;
  if decide (ctx = 0) then
    LOGE "Failed to initialize whisper context" [];;
    mret 0
  else
    LOGI "Model loaded successfully" [];;
    mret (jlong_of_ptr ctx).

(** The loop of lines 88-91, entered with [i] and the text collected so
    far: [for (; i < n_segments; i++) text += segment_text(ctx, i)].
    [i] stays below [n_segments], an [int], so [i++] does not wrap. *)
Equations? segments_loop (ctx : ptr) (n_segments : Z) (i : Z)
    (text : string) (w : World) : option (string * World)
    by wf (Z.to_nat (n_segments - i)) lt :=
  segments_loop ctx n_segments i text w with decide (i < n_segments) := {
    | left _ with whisper_full_get_segment_text ctx i w := {
        | Some (segment_text, w') =>
            segments_loop ctx n_segments (i + 1) (text +:+ segment_text) w'
        | None => None }
    | right _ => Some (text, w) }.
Proof. lia. Qed.

(** [whisperTranscribe] (lines 37-96). *)
Definition Java_com_localwhisper_android_transcription_WhisperManager_whisperTranscribe
    (context_ptr : jlong) (samples : jref) (language : jref) : JNI jref :=
  if decide (context_ptr = 0) then
    LOGE "Invalid context pointer" [];;
    NewStringUTF ""
  else
    let ctx := ptr_of_jlong context_ptr in
    (* Get audio samples *)
    n_samples ← GetArrayLength samples;
    audio_data ← GetFloatArrayElements samples;
    LOGI "Transcribing %d samples" [ArgInt n_samples];;
    (* Get language *)
    lang ← GetStringUTFChars language;
    (* Configure transcription parameters *)
    params ← whisper_full_default_params WHISPER_SAMPLING_GREEDY;
    let params := set_print_progress false params in
    let params := set_print_special false params in
    let params := set_print_realtime false params in
    let params := set_print_timestamps false params in
    let params := set_translate false params in
    let params := set_single_segment false params in
    let params := set_no_timestamps true params in
    let params := set_language lang params in
    let params := set_n_threads 4 params in
    (* Run transcription *)
    result ← whisper_full ctx params audio_data n_samples;
    ReleaseFloatArrayElements samples audio_data 0;;
    ReleaseStringUTFChars language lang;;
    if decide (result ≠ 0) then
      LOGE "Transcription failed with code: %d" [ArgInt result];;
      NewStringUTF ""
    else
      (* Collect results *)
      let text := "" in
      n_segments ← whisper_full_n_segments ctx;
      text ← segments_loop ctx n_segments 0 text;
      LOGI "Transcription complete: %d segments" [ArgInt n_segments];;
      NewStringUTF text.

(** [whisperFree] (lines 98-109). *)
Definition Java_com_localwhisper_android_transcription_WhisperManager_whisperFree
    (context_ptr : jlong) : JNI unit :=
  if decide (context_ptr ≠ 0) then
    let ctx := ptr_of_jlong context_ptr in
    whisper_free ctx;;
    LOGI "Whisper context freed" []
  else mret ().

(** ** What a run of the bridge does *)

(** The configuration that lines 62-71 build for a language tag. *)
Definition transcribe_params (lang : string) : whisper_full_params fparams_rest :=
  set_n_threads 4
    (set_language lang
       (set_no_timestamps true
          (set_single_segment false
             (set_translate false
                (set_print_timestamps false
                   (set_print_realtime false
                      (set_print_special false
                         (set_print_progress false
                            (engine_full_default_params
                               WHISPER_SAMPLING_GREEDY))))))))).

(** Texts placed one after the other, nothing in between. *)
Definition concat_texts (l : list string) : string :=
  foldr String.append "" l.

(** The [k] segment texts the engine holds for [ctx] from index [i] on,
    and the calls that read them. *)
Fixpoint segments_from (ctx : ptr) (e : engine_state) (i : Z) (k : nat)
  : list string :=
  match k with
  | O => []
  | S k' => engine_segment_text ctx i e :: segments_from ctx e (i + 1) k'
  end.

Fixpoint segment_reads (ctx : ptr) (e : engine_state) (i : Z) (k : nat)
  : list event :=
  match k with
  | O => []
  | S k' =>
      EvWhisperSegmentText ctx i (engine_segment_text ctx i e)
      :: segment_reads ctx e (i + 1) k'
  end.

(** The text a Java reference names in a world. *)
Definition text_at (w : World) (r : jref) : option string :=
  match heap w !! r with
  | Some (JString chars) => Some chars
  | _ => None
  end.

(** The elements of the float array a Java reference names. *)
Definition elems_at (w : World) (a : jref) : option (list jfloat) :=
  match heap w !! a with
  | Some (JFloatArray elems) => Some elems
  | _ => None
  end.

(** The calls [whisperTranscribe] makes on a non-zero handle up to and
    including the two releases, when the engine answers [status]. *)
Definition transcribe_calls (ctx : ptr) (samples language : jref)
    (elems : list jfloat) (chars : string) (status : Z) : list event :=
  let n := Z.of_nat (length elems) in
  [ EvGetArrayLength samples n;
    EvGetFloatArrayElements samples elems;
    EvLog ANDROID_LOG_INFO LOG_TAG "Transcribing %d samples" [ArgInt n];
    EvGetStringUTFChars language chars;
    EvWhisperFullDefaultParams WHISPER_SAMPLING_GREEDY;
    EvWhisperFull ctx (transcribe_params chars) elems n status;
    EvReleaseFloatArrayElements samples elems 0;
    EvReleaseStringUTFChars language chars ].

(** The calls that follow a failed inference run. *)
Definition failure_calls (status : Z) (r : jref) : list event :=
  [ EvLog ANDROID_LOG_ERROR LOG_TAG "Transcription failed with code: %d"
      [ArgInt status];
    EvNewStringUTF "" r ].

(** The calls that follow a successful inference run that left the
    engine in state [e]. *)
Definition success_calls (ctx : ptr) (e : engine_state) (r : jref)
  : list event :=
  let n_segments := engine_n_segments ctx e in
  EvWhisperNSegments ctx n_segments
  :: segment_reads ctx e 0 (Z.to_nat n_segments)
  ++ [ EvLog ANDROID_LOG_INFO LOG_TAG "Transcription complete: %d segments"
         [ArgInt n_segments];
       EvNewStringUTF
         (concat_texts (segments_from ctx e 0 (Z.to_nat n_segments))) r ].

(** The context parameters [whisperInit] passes (lines 21-22). *)
Definition init_cparams : whisper_context_params cparams_rest :=
  set_use_gpu true engine_context_default_params.

(** The calls [whisperInit] makes when the engine answers [ctx]. *)
Definition init_calls (model_path : jref) (path : string) (ctx : ptr)
  : list event :=
  [ EvGetStringUTFChars model_path path;
    EvLog ANDROID_LOG_INFO LOG_TAG "Loading model from: %s" [ArgStr path];
    EvWhisperContextDefaultParams;
    EvWhisperInit path init_cparams ctx;
    EvReleaseStringUTFChars model_path path;
    if decide (ctx = 0)
    then EvLog ANDROID_LOG_ERROR LOG_TAG
           "Failed to initialize whisper context" []
    else EvLog ANDROID_LOG_INFO LOG_TAG "Model loaded successfully" [] ].

(** The one call that runs the full inference pipeline. *)
Definition is_inference_call (e : event) : bool :=
  match e with EvWhisperFull _ _ _ _ _ => true | _ => false end.

(** ** Notions used to state further properties *)

(** The context a call into the engine names, if it names one. *)
Definition event_ctx (e : event) : option ptr :=
  match e with
  | EvWhisperInit _ _ ctx | EvWhisperFull ctx _ _ _ _
  | EvWhisperNSegments ctx _ | EvWhisperSegmentText ctx _ _
  | EvWhisperFree ctx => Some ctx
  | _ => None
  end.

(** Calls that create or destroy a context. *)
Definition is_lifetime_call (e : event) : bool :=
  match e with
  | EvWhisperContextDefaultParams | EvWhisperInit _ _ _ | EvWhisperFree _ =>
      true
  | _ => false
  end.

Definition is_init_call (e : event) : bool :=
  match e with EvWhisperInit _ _ _ => true | _ => false end.

(** Calls that give a borrowed view back. *)
Definition is_release_call (e : event) : bool :=
  match e with
  | EvReleaseStringUTFChars _ _ | EvReleaseFloatArrayElements _ _ _ => true
  | _ => false
  end.

(** The index a call to [whisper_full_get_segment_text] asks for. *)
Definition segment_index (e : event) : option Z :=
  match e with EvWhisperSegmentText _ i _ => Some i | _ => None end.

(** What [whisperTranscribe] does after the two releases, and the text it
    returns, by the status of the inference run. *)
Definition transcribe_tail (ctx : ptr) (status : Z) (e : engine_state)
    (r : jref) : list event :=
  if decide (status = 0) then success_calls ctx e r
  else failure_calls status r.

Definition transcribe_text (ctx : ptr) (status : Z) (e : engine_state)
  : string :=
  if decide (status = 0)
  then concat_texts (segments_from ctx e 0 (Z.to_nat (engine_n_segments ctx e)))
  else "".

(** One use of a model through the three entry points: load it, transcribe
    once with the handle obtained, release that handle. *)
Definition load_transcribe_release (model_path samples language : jref)
  : JNI jref :=
  h ← Java_com_localwhisper_android_transcription_WhisperManager_whisperInit
        model_path;
  r ← Java_com_localwhisper_android_transcription_WhisperManager_whisperTranscribe
        h samples language;
  Java_com_localwhisper_android_transcription_WhisperManager_whisperFree h;;
  mret r.

(** A call of one of the three entry points, and a sequence of such calls
    made one after the other, results dropped. *)
Inductive bridge_call : Type :=
| CallInit (model_path : jref)
| CallTranscribe (context_ptr : jlong) (samples language : jref)
| CallFree (context_ptr : jlong).

Definition run_call (c : bridge_call) : JNI unit :=
  match c with
  | CallInit model_path =>
      Java_com_localwhisper_android_transcription_WhisperManager_whisperInit
        model_path;;
      mret ()
  | CallTranscribe context_ptr samples language =>
      Java_com_localwhisper_android_transcription_WhisperManager_whisperTranscribe
        context_ptr samples language;;
      mret ()
  | CallFree context_ptr =>
      Java_com_localwhisper_android_transcription_WhisperManager_whisperFree
        context_ptr
  end.

Fixpoint run_calls (cs : list bridge_call) : JNI unit :=
  match cs with
  | [] => mret ()
  | c :: cs' => run_call c;; run_calls cs'
  end.

(** Log lines written at error priority. *)
Definition is_error_log (e : event) : bool :=
  match e with EvLog ANDROID_LOG_ERROR _ _ _ => true | _ => false end.

(** What a caller can rely on across calls: from [w] to [w'] the borrowed
    views outstanding are the same, every object of the Java heap is still
    there with the same content, and the record of calls has only grown. *)
Definition world_preserved (w w' : World) : Prop :=
  utf_borrows w' = utf_borrows w ∧
  float_borrows w' = float_borrows w ∧
  (∀ k o, heap w !! k = Some o → heap w' !! k = Some o) ∧
  ∃ calls, trace w' = trace w ++ calls.

End Bridge.

Abbreviation whisperInit :=
  Java_com_localwhisper_android_transcription_WhisperManager_whisperInit.
Abbreviation whisperTranscribe :=
  Java_com_localwhisper_android_transcription_WhisperManager_whisperTranscribe.
Abbreviation whisperFree :=
  Java_com_localwhisper_android_transcription_WhisperManager_whisperFree.

(** ** The bridge run on a small engine *)

(** An engine to run the bridge against: it loads any model whose path is
    not empty, always at address [4096]; it refuses an empty sample buffer
    with status [-1]; otherwise it emits one segment, a space and the
    language tag, for every sample that is not a zero. Its defaults are the
    opposite of what the bridge asks for, so that what the bridge writes
    shows. *)
Definition toy_init (path : string) (cparams : whisper_context_params unit)
    (e : list string) : ptr * list string :=
  (if decide (path = "") then 0 else 4096, e).

Definition toy_full (ctx : ptr) (params : whisper_full_params unit)
    (samples : list jfloat) (n_samples : Z) (e : list string)
  : Z * list string :=
  if decide (n_samples = 0) then (-1, e)
  else (0, omap (λ x, match x with
                      | S754_zero _ => None
                      | _ => Some (" " +:+ language params)
                      end) samples).

#[global] Instance toy_engine : Whisper := {|
  engine_state := list string;
  cparams_rest := unit;
  fparams_rest := unit;
  engine_context_default_params := mk_whisper_context_params false ();
  engine_init := toy_init;
  engine_full_default_params s :=
    mk_whisper_full_params s 1 true false true true true true true "auto" ();
  engine_full := toy_full;
  engine_n_segments _ e := Z.of_nat (length e);
  engine_segment_text _ i e := default "" (e !! Z.to_nat i);
  engine_free _ _ := []
|}.

(** A world with three sample arrays (speech, nothing, silence), a language
    tag and a model path; no borrow is outstanding and no call was made. *)
Definition toy_world : World :=
  mk_World
    (list_to_map
       [ (1%positive, JFloatArray [S754_nan; S754_zero false; S754_nan]);
         (2%positive, JString "en");
         (3%positive, JString "/sdcard/ggml-tiny.bin");
         (4%positive, JFloatArray []);
         (5%positive, JFloatArray [S754_zero false]) ])
    [] [] [] [].

(** The same engine, except that it reports a negative number of segments. *)
Definition negative_engine : Whisper := {|
  engine_state := list string;
  cparams_rest := unit;
  fparams_rest := unit;
  engine_context_default_params := mk_whisper_context_params false ();
  engine_init := toy_init;
  engine_full_default_params s :=
    mk_whisper_full_params s 1 true false true true true true true "auto" ();
  engine_full := toy_full;
  engine_n_segments _ e := -1;
  engine_segment_text _ i e := default "" (e !! Z.to_nat i);
  engine_free _ _ := []
|}.

Definition negative_world : @World negative_engine :=
  @mk_World negative_engine
    (list_to_map
       [ (1%positive, JFloatArray [S754_nan; S754_zero false; S754_nan]);
         (2%positive, JString "en") ])
    [] [] [] [].

(** A world in which the model path is empty, which the small engine does
    not load. *)
Definition toy_world_no_model : World :=
  mk_World (list_to_map [(3%positive, JString "")]) [] [] [] [].

(** A sequence of calls on [toy_world], and the world it ends in. *)
Definition toy_calls : list bridge_call :=
  [ CallInit 3; CallTranscribe 4096 1 2; CallTranscribe 0 1 2;
    CallTranscribe 4096 4 2; CallFree 4096; CallFree 0 ].

Definition toy_world_after : World :=
  match run_calls toy_calls toy_world with
  | Some (_, w') => w'
  | None => toy_world
  end.

(** ** Properties of the bridge *)

Section BridgeFacts.
Context `{W : Whisper}.

Lemma append_String (c : Ascii.ascii) (s1 s2 : string) :
  String c s1 +:+ s2 = String c (s1 +:+ s2).
Proof. reflexivity. Qed.

Lemma append_empty_l (s : string) : "" +:+ s = s.
Proof. reflexivity. Qed.

Lemma append_assoc (s1 s2 s3 : string) :
  (s1 +:+ s2) +:+ s3 = s1 +:+ (s2 +:+ s3).
Proof.
  induction s1 as [|c s1 IH]; [done|]. by rewrite !append_String, IH.
Qed.

Lemma append_empty_r (s : string) : s +:+ "" = s.
Proof. induction s as [|c s IH]; [done|]. by rewrite append_String, IH. Qed.

Lemma take_out_head {A} `{EqDecision A} (x : A) (l : list A) :
  take_out x (x :: l) = Some l.
Proof. simpl. by rewrite decide_True. Qed.

Lemma text_at_Some w r chars :
  text_at w r = Some chars ↔ heap w !! r = Some (JString chars).
Proof.
  unfold text_at. destruct (heap w !! r) as [[c|l]|]; naive_solver.
Qed.

Lemma elems_at_Some w a elems :
  elems_at w a = Some elems ↔ heap w !! a = Some (JFloatArray elems).
Proof.
  unfold elems_at. destruct (heap w !! a) as [[c|l]|]; naive_solver.
Qed.

(** The loop reads the remaining [n_segments - i] segments in order,
    appends each to the text, and changes nothing but the trace. *)
Lemma segments_loop_run (k : nat) :
  ∀ ctx n_segments i text w,
    Z.to_nat (n_segments - i) = k →
    segments_loop ctx n_segments i text w =
    Some (text +:+ concat_texts (segments_from ctx (engine w) i k),
          mk_World (heap w) (utf_borrows w) (float_borrows w) (engine w)
            (trace w ++ segment_reads ctx (engine w) i k)).
Proof.
  induction k as [|k IH]; intros ctx n i text w Hk;
    simp segments_loop; destruct (decide (i < n)) as [Hlt|Hge]; simpl;
    try lia.
  - rewrite append_empty_r, app_nil_r. by destruct w.
  - rewrite (IH ctx n (i + 1)) by lia. simpl.
    by rewrite append_assoc, <- app_assoc.
Qed.

Ltac unfold_world :=
  unfold emit, set_heap, set_utf_borrows, set_float_borrows, set_engine;
  cbn [heap utf_borrows float_borrows engine trace fst snd].

(** Runs the part common to both exits of a non-zero-handle call. *)
Ltac run_transcribe Hh Hs Hl :=
  unfold Java_com_localwhisper_android_transcription_WhisperManager_whisperTranscribe;
  rewrite decide_False by exact Hh;
  unfold mbind, JNI_bind;
  unfold GetArrayLength at 1; rewrite Hs;
  unfold GetFloatArrayElements at 1; unfold_world; rewrite Hs;
  unfold LOGI at 1, __android_log_print at 1;
  unfold GetStringUTFChars at 1; unfold_world; rewrite Hl;
  unfold whisper_full_default_params at 1;
  unfold whisper_full at 1; unfold_world;
  match goal with
  | |- context [set_n_threads 4 (set_language ?c ?p)] =>
      change (set_n_threads 4 (set_language c p)) with (transcribe_params c)
  end;
  unfold ReleaseFloatArrayElements at 1; unfold_world;
  rewrite take_out_head, Hs, (decide_True (P := 0 = 0)) by reflexivity;
  unfold ReleaseStringUTFChars at 1; unfold_world;
  rewrite take_out_head, (insert_id _ _ _ Hs).

Lemma transcribe_failure_run h samples language w elems chars :
  h ≠ 0 →
  heap w !! samples = Some (JFloatArray elems) →
  heap w !! language = Some (JString chars) →
  let ctx := ptr_of_jlong h in
  let run := engine_full ctx (transcribe_params chars) elems
               (Z.of_nat (length elems)) (engine w) in
  let r := fresh (dom (heap w)) in
  run.1 ≠ 0 →
  Java_com_localwhisper_android_transcription_WhisperManager_whisperTranscribe
    h samples language w =
  Some (r, mk_World (<[r := JString ""]> (heap w)) (utf_borrows w)
             (float_borrows w) run.2
             (trace w
              ++ transcribe_calls ctx samples language elems chars run.1
              ++ failure_calls run.1 r)).
Proof.
  intros Hh Hs Hl ctx run r Hrun. subst ctx run r.
  run_transcribe Hh Hs Hl.
  rewrite decide_True by exact Hrun.
  unfold LOGE, __android_log_print, NewStringUTF. unfold_world.
  by rewrite <- !app_assoc.
Qed.

Lemma transcribe_success_run h samples language w elems chars :
  h ≠ 0 →
  heap w !! samples = Some (JFloatArray elems) →
  heap w !! language = Some (JString chars) →
  let ctx := ptr_of_jlong h in
  let run := engine_full ctx (transcribe_params chars) elems
               (Z.of_nat (length elems)) (engine w) in
  let r := fresh (dom (heap w)) in
  let text :=
    concat_texts
      (segments_from ctx run.2 0 (Z.to_nat (engine_n_segments ctx run.2))) in
  run.1 = 0 →
  Java_com_localwhisper_android_transcription_WhisperManager_whisperTranscribe
    h samples language w =
  Some (r, mk_World (<[r := JString text]> (heap w)) (utf_borrows w)
             (float_borrows w) run.2
             (trace w
              ++ transcribe_calls ctx samples language elems chars run.1
              ++ success_calls ctx run.2 r)).
Proof.
  intros Hh Hs Hl ctx run r text Hrun. subst ctx run r text.
  run_transcribe Hh Hs Hl.
  rewrite decide_False by (intros Hne; exact (Hne Hrun)).
  unfold whisper_full_n_segments. unfold_world.
  erewrite segments_loop_run by reflexivity.
  unfold LOGI, __android_log_print, NewStringUTF. unfold_world.
  rewrite Z.sub_0_r, append_empty_l. unfold success_calls.
  by rewrite <- !app_assoc.
Qed.

Lemma transcribe_zero_run samples language w :
  let r := fresh (dom (heap w)) in
  Java_com_localwhisper_android_transcription_WhisperManager_whisperTranscribe
    0 samples language w =
  Some (r, mk_World (<[r := JString ""]> (heap w)) (utf_borrows w)
             (float_borrows w) (engine w)
             (trace w
              ++ [ EvLog ANDROID_LOG_ERROR LOG_TAG "Invalid context pointer" [];
                   EvNewStringUTF "" r ])).
Proof.
  unfold Java_com_localwhisper_android_transcription_WhisperManager_whisperTranscribe.
  rewrite decide_True by reflexivity.
  unfold mbind, JNI_bind, LOGE, __android_log_print, NewStringUTF.
  unfold_world. by rewrite <- app_assoc.
Qed.

Lemma transcribe_nonzero_run h samples language w elems chars :
  h ≠ 0 →
  heap w !! samples = Some (JFloatArray elems) →
  heap w !! language = Some (JString chars) →
  let ctx := ptr_of_jlong h in
  let run := engine_full ctx (transcribe_params chars) elems
               (Z.of_nat (length elems)) (engine w) in
  let r := fresh (dom (heap w)) in
  whisperTranscribe h samples language w =
  Some (r, mk_World (<[r := JString (transcribe_text ctx run.1 run.2)]> (heap w))
             (utf_borrows w) (float_borrows w) run.2
             (trace w
              ++ transcribe_calls ctx samples language elems chars run.1
              ++ transcribe_tail ctx run.1 run.2 r)).
Proof.
  intros Hh Hs Hl ctx run r. unfold transcribe_text, transcribe_tail.
  destruct (decide (run.1 = 0)) as [Hrun|Hrun].
  - by apply transcribe_success_run.
  - by apply transcribe_failure_run.
Qed.

(** Reading [k] segments from index [i] on gives the same texts in two
    engine states that agree on those segments. *)
Lemma segments_from_ext ctx e1 e2 k :
  ∀ i,
    (∀ j, i ≤ j < i + Z.of_nat k →
          engine_segment_text ctx j e2 = engine_segment_text ctx j e1) →
    segments_from ctx e2 i k = segments_from ctx e1 i k.
Proof.
  induction k as [|k IH]; intros i Hagree; [done|].
  cbn [segments_from]. f_equal.
  - apply Hagree. lia.
  - apply IH. intros j Hj. apply Hagree. lia.
Qed.

Lemma init_run model_path path w :
  heap w !! model_path = Some (JString path) →
  let run := engine_init path init_cparams (engine w) in
  Java_com_localwhisper_android_transcription_WhisperManager_whisperInit
    model_path w =
  Some (if decide (run.1 = 0) then 0 else jlong_of_ptr run.1,
        mk_World (heap w) (utf_borrows w) (float_borrows w) run.2
          (trace w ++ init_calls model_path path run.1)).
Proof.
  intros Hp run. subst run.
  unfold Java_com_localwhisper_android_transcription_WhisperManager_whisperInit.
  unfold mbind, JNI_bind.
  unfold GetStringUTFChars at 1. rewrite Hp.
  unfold LOGI at 1, __android_log_print at 1.
  unfold whisper_context_default_params, whisper_init_from_file_with_params.
  unfold_world. fold init_cparams.
  unfold ReleaseStringUTFChars. unfold_world. rewrite take_out_head.
  unfold init_calls.
  destruct (decide ((engine_init path init_cparams (engine w)).1 = 0));
    unfold LOGE, LOGI, __android_log_print, mret, JNI_ret; unfold_world;
    by rewrite <- !app_assoc.
Qed.

Lemma free_zero_run w :
  Java_com_localwhisper_android_transcription_WhisperManager_whisperFree 0 w
  = Some ((), w).
Proof.
  unfold Java_com_localwhisper_android_transcription_WhisperManager_whisperFree.
  by rewrite decide_False by (intros Hne; exact (Hne eq_refl)).
Qed.

Lemma free_run h w :
  h ≠ 0 →
  Java_com_localwhisper_android_transcription_WhisperManager_whisperFree h w
  = Some ((), mk_World (heap w) (utf_borrows w) (float_borrows w)
                (engine_free (ptr_of_jlong h) (engine w))
                (trace w
                 ++ [ EvWhisperFree (ptr_of_jlong h);
                      EvLog ANDROID_LOG_INFO LOG_TAG "Whisper context freed"
                        [] ])).
Proof.
  intros Hh.
  unfold Java_com_localwhisper_android_transcription_WhisperManager_whisperFree.
  rewrite decide_True by exact Hh.
  unfold mbind, JNI_bind, whisper_free, LOGI, __android_log_print.
  unfold_world. by rewrite <- app_assoc.
Qed.

(** The handle is the context's address and nothing else. *)
Lemma jlong_of_ptr_zero (p : ptr) :
  0 ≤ p < 2 ^ 64 → (jlong_of_ptr p = 0 ↔ p = 0).
Proof.
  intros Hp. unfold jlong_of_ptr.
  destruct (decide (p < 2 ^ 63)).
  - rewrite Z.mod_small by lia. lia.
  - replace (p + 2 ^ 63) with ((p - 2 ^ 63) + 1 * 2 ^ 64) by lia.
    rewrite Z.mod_add by lia. rewrite Z.mod_small by lia. lia.
Qed.

Lemma ptr_of_jlong_of_ptr (p : ptr) :
  0 ≤ p < 2 ^ 64 → ptr_of_jlong (jlong_of_ptr p) = p.
Proof.
  intros Hp. unfold jlong_of_ptr, ptr_of_jlong.
  destruct (decide (p < 2 ^ 63)).
  - rewrite (Z.mod_small (p + 2 ^ 63)) by lia.
    replace (p + 2 ^ 63 - 2 ^ 63) with p by lia. apply Z.mod_small; lia.
  - replace (p + 2 ^ 63) with ((p - 2 ^ 63) + 1 * 2 ^ 64) by lia.
    rewrite Z.mod_add by lia. rewrite (Z.mod_small (p - 2 ^ 63)) by lia.
    replace (p - 2 ^ 63 - 2 ^ 63) with (p + (-1) * 2 ^ 64) by lia.
    rewrite Z.mod_add by lia. apply Z.mod_small; lia.
Qed.

(** When the engine holds exactly the segments [segs], reading them from
    index [i] on gives [segs]. *)
Lemma segments_from_eq ctx e (segs : list string) :
  ∀ i,
    (∀ (j : nat) s, segs !! j = Some s →
                    engine_segment_text ctx (i + Z.of_nat j) e = s) →
    segments_from ctx e i (length segs) = segs.
Proof.
  induction segs as [|s segs IH]; intros i Hsegs; [done|].
  cbn [length segments_from]. f_equal.
  - rewrite <- (Hsegs 0%nat s eq_refl). f_equal. lia.
  - apply IH. intros j s' Hj. rewrite <- (Hsegs (S j) s' Hj). f_equal. lia.
Qed.

Lemma text_at_new w r chars ub fb e tr :
  text_at (mk_World (<[r := JString chars]> (heap w)) ub fb e tr) r
  = Some chars.
Proof. unfold text_at. cbn [heap]. by rewrite lookup_insert_eq. Qed.

Lemma last_two {A} (l : list A) (a b : A) : last (l ++ [a; b]) = Some b.
Proof.
  change [a; b] with ([a] ++ [b]). rewrite app_assoc. apply last_snoc.
Qed.

Lemma segment_reads_no_inference ctx e k :
  ∀ i, List.filter is_inference_call (segment_reads ctx e i k) = [].
Proof. induction k as [|k IH]; intros i; [done|]. simpl. apply IH. Qed.

Lemma fresh_not_mapped (m : gmap positive jobject) k o :
  m !! k = Some o → fresh (dom m) ≠ k.
Proof.
  intros Hk Heq. apply (is_fresh (dom m)). rewrite Heq.
  apply elem_of_dom. by exists o.
Qed.

(** ** Properties of [whisperTranscribe] *)

(** C1. On a non-zero handle, when the inference run succeeds and the
    engine then holds the segments [segs] (any number of them, possibly
    none), the call returns a Java string whose text is the segment texts
    one after the other, in order, with nothing between them. *)
Theorem transcribe_concatenates_segments
    h samples language w elems chars (segs : list string) :
  h ≠ 0 →
  elems_at w samples = Some elems →
  text_at w language = Some chars →
  let ctx := ptr_of_jlong h in
  let run := engine_full ctx (transcribe_params chars) elems
               (Z.of_nat (length elems)) (engine w) in
  run.1 = 0 →
  engine_n_segments ctx run.2 = Z.of_nat (length segs) →
  (∀ (i : nat) s, segs !! i = Some s →
                  engine_segment_text ctx (Z.of_nat i) run.2 = s) →
  ∃ r w',
    whisperTranscribe h samples language w = Some (r, w') ∧
    text_at w' r = Some (concat_texts segs).
Proof.
  intros Hh Hs%elems_at_Some Hl%text_at_Some ctx run Hrun Hn Hsegs.
  eexists _, _. split.
  - by apply transcribe_success_run.
  - rewrite text_at_new. fold ctx run. rewrite Hn, Nat2Z.id.
    by rewrite segments_from_eq.
Qed.

(** C2. On the zero handle, whatever the sample array and the language
    reference are, the call returns an empty Java string, and none of the
    calls it makes enters the engine, whose state stays as it was. *)
Theorem transcribe_zero_handle samples language w :
  ∃ r w' calls,
    whisperTranscribe 0 samples language w = Some (r, w') ∧
    text_at w' r = Some "" ∧
    trace w' = trace w ++ calls ∧
    Forall (λ ev, is_engine_event ev = false) calls ∧
    engine w' = engine w.
Proof.
  eexists _, _, _. split; [apply transcribe_zero_run|].
  rewrite text_at_new. cbn [trace engine].
  repeat split. by repeat constructor.
Qed.

(** C3. On a non-zero handle, when the inference call answers a non-zero
    status, the call returns an empty Java string: the only change to the
    Java heap is that new empty string, so the status value is not passed
    on, and no call reads the number of segments or a segment text. *)
Theorem transcribe_engine_failure h samples language w elems chars :
  h ≠ 0 →
  elems_at w samples = Some elems →
  text_at w language = Some chars →
  let ctx := ptr_of_jlong h in
  let run := engine_full ctx (transcribe_params chars) elems
               (Z.of_nat (length elems)) (engine w) in
  run.1 ≠ 0 →
  ∃ r w' calls,
    whisperTranscribe h samples language w = Some (r, w') ∧
    text_at w' r = Some "" ∧
    heap w' = <[r := JString ""]> (heap w) ∧
    trace w' = trace w ++ calls ∧
    Forall (λ ev, is_segment_read ev = false) calls.
Proof.
  intros Hh Hs%elems_at_Some Hl%text_at_Some ctx run Hrun.
  eexists _, _, _. split; [by apply transcribe_failure_run|].
  rewrite text_at_new. cbn [trace heap].
  repeat split. by repeat constructor.
Qed.

(** C4. [whisperInit] on a model path returns the zero handle exactly
    when the engine constructs no context; otherwise the handle is
    non-zero and names the context the engine returned. Either way the
    bridge leaves nothing behind: the Java heap and the outstanding
    borrows are those from before the call. *)
Theorem init_zero_iff_engine_fails model_path w path :
  text_at w model_path = Some path →
  let run := engine_init path init_cparams (engine w) in
  0 ≤ run.1 < 2 ^ 64 →
  ∃ h w',
    whisperInit model_path w = Some (h, w') ∧
    (h = 0 ↔ run.1 = 0) ∧
    (run.1 ≠ 0 → ptr_of_jlong h = run.1) ∧
    heap w' = heap w ∧
    utf_borrows w' = utf_borrows w ∧
    float_borrows w' = float_borrows w ∧
    engine w' = run.2.
Proof.
  intros Hp%text_at_Some run Hrange.
  eexists _, _. split; [by apply init_run|].
  fold run. cbn [heap utf_borrows float_borrows engine].
  destruct (decide (run.1 = 0)) as [Hnull|Hctx].
  - by repeat split.
  - repeat split; try done.
    + intros Hzero. exact (proj1 (jlong_of_ptr_zero _ Hrange) Hzero).
    + intros _. by apply ptr_of_jlong_of_ptr.
Qed.

(** C5. On a non-zero handle the call runs the engine's full inference
    pipeline exactly once, on the context the handle names and the
    borrowed samples, with a configuration in which: sampling is greedy
    (the engine's defaults for the greedy strategy being greedy),
    translation is off, single-segment mode is off, timestamps are
    suppressed, four threads are used, every print flag is off, and the
    language is the caller's tag. *)
Theorem transcribe_fixed_policy h samples tag w elems chars :
  strategy (engine_full_default_params WHISPER_SAMPLING_GREEDY)
  = WHISPER_SAMPLING_GREEDY →
  h ≠ 0 →
  elems_at w samples = Some elems →
  text_at w tag = Some chars →
  ∃ r w' calls params status,
    whisperTranscribe h samples tag w = Some (r, w') ∧
    trace w' = trace w ++ calls ∧
    List.filter is_inference_call calls =
      [EvWhisperFull (ptr_of_jlong h) params elems
         (Z.of_nat (length elems)) status] ∧
    strategy params = WHISPER_SAMPLING_GREEDY ∧
    translate params = false ∧
    single_segment params = false ∧
    no_timestamps params = true ∧
    n_threads params = 4 ∧
    print_progress params = false ∧
    print_special params = false ∧
    print_realtime params = false ∧
    print_timestamps params = false ∧
    language params = chars.
Proof.
  intros Hgreedy Hh Hs%elems_at_Some Hl%text_at_Some.
  set (run := engine_full (ptr_of_jlong h) (transcribe_params chars) elems
                (Z.of_nat (length elems)) (engine w)).
  destruct (decide (run.1 = 0)) as [Hrun|Hrun].
  - eexists _, _, _, (transcribe_params chars), run.1.
    split; [by apply transcribe_success_run|].
    split; [reflexivity|]. split.
    + unfold success_calls. simpl.
      rewrite List.filter_app, segment_reads_no_inference. reflexivity.
    + by repeat split.
  - eexists _, _, _, (transcribe_params chars), run.1.
    split; [by apply transcribe_failure_run|].
    split; [reflexivity|]. by repeat split.
Qed.

(** C6. [whisperFree] on the zero handle makes no call and leaves the
    world as it was; on a non-zero handle it makes exactly one call to the
    engine's [whisper_free], for the context the handle names. *)
Theorem free_zero_noop_nonzero_once h w :
  ∃ w' calls,
    whisperFree h w = Some ((), w') ∧
    trace w' = trace w ++ calls ∧
    (h = 0 → w' = w ∧ calls = []) ∧
    (h ≠ 0 →
     List.filter is_free_event calls = [EvWhisperFree (ptr_of_jlong h)] ∧
     engine w' = engine_free (ptr_of_jlong h) (engine w) ∧
     heap w' = heap w ∧
     utf_borrows w' = utf_borrows w ∧
     float_borrows w' = float_borrows w).
Proof.
  destruct (decide (h = 0)) as [->|Hh].
  - exists w, []. rewrite free_zero_run, app_nil_r. by repeat split.
  - eexists _, _. split; [by apply free_run|].
    cbn [trace]. split; [reflexivity|]. by split.
Qed.

(** C7. On a non-zero handle, whatever the engine answers, the call
    first borrows the sample buffer and the language characters, then
    releases both, and only after that makes its remaining calls, the
    last of which creates the string it returns; at return, the
    outstanding borrows are those from before the call. *)
Theorem transcribe_releases_borrows h samples language w elems chars :
  h ≠ 0 →
  elems_at w samples = Some elems →
  text_at w language = Some chars →
  ∃ r w' before after text,
    whisperTranscribe h samples language w = Some (r, w') ∧
    trace w' =
      trace w ++ before
      ++ [ EvReleaseFloatArrayElements samples elems 0;
           EvReleaseStringUTFChars language chars ]
      ++ after ∧
    In (EvGetFloatArrayElements samples elems) before ∧
    In (EvGetStringUTFChars language chars) before ∧
    last after = Some (EvNewStringUTF text r) ∧
    float_borrows w' = float_borrows w ∧
    utf_borrows w' = utf_borrows w.
Proof.
  intros Hh Hs%elems_at_Some Hl%text_at_Some.
  set (run := engine_full (ptr_of_jlong h) (transcribe_params chars) elems
                (Z.of_nat (length elems)) (engine w)).
  destruct (decide (run.1 = 0)) as [Hrun|Hrun].
  - eexists _, _, (take 6 (transcribe_calls _ _ _ _ _ _)), _, _.
    split; [by apply transcribe_success_run|].
    cbn [trace float_borrows utf_borrows].
    split; [reflexivity|]. split; [simpl; tauto|]. split; [simpl; tauto|].
    split; [|done].
    unfold success_calls. rewrite app_comm_cons. apply last_two.
  - eexists _, _, (take 6 (transcribe_calls _ _ _ _ _ _)), _, _.
    split; [by apply transcribe_failure_run|].
    cbn [trace float_borrows utf_borrows].
    split; [reflexivity|]. split; [simpl; tauto|]. split; [simpl; tauto|].
    by split.
Qed.

(** C8. Two calls one after the other, with the same non-zero handle, the
    same sample array and the same language string, the second made in the
    world the first one left: when the engine itself is idempotent on
    that input (run again from the state its first run left, it answers
    the same status and holds the same segments), the two calls return
    strings with the same text. The bridge carries nothing over from the
    first call to the second. *)
Theorem transcribe_twice_same_transcript
    h samples language w elems chars :
  h ≠ 0 →
  elems_at w samples = Some elems →
  text_at w language = Some chars →
  let ctx := ptr_of_jlong h in
  let n := Z.of_nat (length elems) in
  let run1 := engine_full ctx (transcribe_params chars) elems n (engine w) in
  let run2 := engine_full ctx (transcribe_params chars) elems n run1.2 in
  run2.1 = run1.1 →
  engine_n_segments ctx run2.2 = engine_n_segments ctx run1.2 →
  (∀ i, 0 ≤ i < engine_n_segments ctx run1.2 →
        engine_segment_text ctx i run2.2 = engine_segment_text ctx i run1.2) →
  ∃ r1 w1 r2 w2 text,
    whisperTranscribe h samples language w = Some (r1, w1) ∧
    whisperTranscribe h samples language w1 = Some (r2, w2) ∧
    text_at w1 r1 = Some text ∧
    text_at w2 r2 = Some text.
Proof.
  intros Hh Hs%elems_at_Some Hl%text_at_Some ctx n run1 run2
    Hstatus Hcount Htexts.
  set (r1 := fresh (dom (heap w))).
  set (text := transcribe_text ctx run1.1 run1.2).
  set (h1 := <[r1 := JString text]> (heap w)).
  assert (transcribe_text ctx run2.1 run2.2 = text) as Hsame.
  { unfold text, transcribe_text. rewrite Hstatus.
    destruct (decide (run1.1 = 0)) as [Hrun|Hrun]; [|done].
    rewrite Hcount. f_equal. apply segments_from_ext.
    intros j Hj. apply Htexts. lia. }
  eexists r1, _, (fresh (dom h1)), _, text.
  split; [by apply transcribe_nonzero_run|].
  split.
  - apply transcribe_nonzero_run; [done|..]; cbn [heap];
      fold ctx n run1 r1 text h1; unfold h1;
      rewrite lookup_insert_ne; eauto using fresh_not_mapped.
  - split; [apply text_at_new|].
    unfold text_at. cbn [heap engine]. rewrite lookup_insert_eq.
    f_equal. exact Hsame.
Qed.

(** C9. A call returns an empty Java string, and changes the Java heap
    by that new empty string only, in each of three cases: the handle is
    zero; the inference call answers a non-zero status; the inference call
    succeeds and the engine reports zero segments. The caller sees the
    same outcome in all three. *)
Theorem transcribe_empty_three_ways h samples language w elems chars :
  let ctx := ptr_of_jlong h in
  let run := engine_full ctx (transcribe_params chars) elems
               (Z.of_nat (length elems)) (engine w) in
  h = 0 ∨
  (h ≠ 0 ∧ elems_at w samples = Some elems ∧ text_at w language = Some chars
   ∧ (run.1 ≠ 0 ∨ (run.1 = 0 ∧ engine_n_segments ctx run.2 = 0))) →
  ∃ r w',
    whisperTranscribe h samples language w = Some (r, w') ∧
    text_at w' r = Some "" ∧
    r = fresh (dom (heap w)) ∧
    heap w' = <[r := JString ""]> (heap w).
Proof.
  intros ctx run
    [->|(Hh & Hs%elems_at_Some & Hl%text_at_Some & [Hrun|[Hrun Hn]])].
  - eexists _, _. split; [apply transcribe_zero_run|].
    by rewrite text_at_new.
  - eexists _, _. split; [by apply transcribe_failure_run|].
    by rewrite text_at_new.
  - eexists _, _. split; [by apply transcribe_success_run|].
    fold ctx run. rewrite Hn. by rewrite text_at_new.
Qed.

(** C10. A call leaves the caller's inputs as they were: on every path
    (zero handle, failed inference, successful inference) the sample array
    holds the same elements and the language string the same characters
    after the call as before it, as does every other object of the Java
    heap. *)
Theorem transcribe_frame h samples language w elems chars :
  elems_at w samples = Some elems →
  text_at w language = Some chars →
  ∃ r w',
    whisperTranscribe h samples language w = Some (r, w') ∧
    elems_at w' samples = Some elems ∧
    text_at w' language = Some chars ∧
    (∀ k o, heap w !! k = Some o → heap w' !! k = Some o).
Proof.
  intros Hs%elems_at_Some Hl%text_at_Some.
  assert (∀ text ub fb e tr,
    let w' := mk_World (<[fresh (dom (heap w)) := JString text]> (heap w))
                ub fb e tr in
    elems_at w' samples = Some elems ∧ text_at w' language = Some chars ∧
    (∀ k o, heap w !! k = Some o → heap w' !! k = Some o)) as Hframe.
  { intros text ub fb e tr w'. subst w'.
    rewrite elems_at_Some, text_at_Some. cbn [heap].
    repeat split; [| |intros k o Hk];
      rewrite lookup_insert_ne; eauto using fresh_not_mapped. }
  set (run := engine_full (ptr_of_jlong h) (transcribe_params chars) elems
                (Z.of_nat (length elems)) (engine w)).
  destruct (decide (h = 0)) as [->|Hh];
    [|destruct (decide (run.1 = 0)) as [Hrun|Hrun]].
  - eexists _, _. split; [apply transcribe_zero_run|apply Hframe].
  - eexists _, _. split; [by apply transcribe_success_run|apply Hframe].
  - eexists _, _. split; [by apply transcribe_failure_run|apply Hframe].
Qed.

(** ** Further properties *)

Lemma segment_reads_Forall (P : event → Prop) ctx e k :
  (∀ i text, P (EvWhisperSegmentText ctx i text)) →
  ∀ i, Forall P (segment_reads ctx e i k).
Proof.
  intros HP. induction k as [|k IH]; intros i; constructor; [apply HP|apply IH].
Qed.

Lemma segment_reads_indices ctx e k :
  ∀ i, omap segment_index (segment_reads ctx e i k) = seqZ i (Z.of_nat k).
Proof.
  induction k as [|k IH]; intros i; [done|].
  rewrite seqZ_cons by lia. cbn [segment_reads].
  change (omap segment_index (?ev :: ?l))
    with (i :: omap segment_index (segment_reads ctx e (i + 1) k)).
  rewrite IH. do 2 f_equal; lia.
Qed.

Lemma transcribe_tail_Forall (P : event → Prop) ctx status e r :
  (∀ n, P (EvWhisperNSegments ctx n)) →
  (∀ i text, P (EvWhisperSegmentText ctx i text)) →
  (∀ prio tag fmt args, P (EvLog prio tag fmt args)) →
  (∀ text, P (EvNewStringUTF text r)) →
  Forall P (transcribe_tail ctx status e r).
Proof.
  intros Hn Hseg Hlog Hnew. unfold transcribe_tail, success_calls, failure_calls.
  case_decide.
  - constructor; [apply Hn|]. apply Forall_app. split.
    + by apply segment_reads_Forall.
    + repeat constructor; [apply Hlog|apply Hnew].
  - repeat constructor; [apply Hlog|apply Hnew].
Qed.

(** X1. After a successful inference run the bridge asks the engine for the
    segment texts at the indices [0, 1, ..., n_segments - 1], each once and
    in that order, and for no other index; for a count that is zero or
    negative it asks for none. *)
Theorem transcribe_reads_segments_in_range
    h samples language w elems chars :
  h ≠ 0 →
  elems_at w samples = Some elems →
  text_at w language = Some chars →
  let ctx := ptr_of_jlong h in
  let run := engine_full ctx (transcribe_params chars) elems
               (Z.of_nat (length elems)) (engine w) in
  run.1 = 0 →
  ∃ r w' calls,
    whisperTranscribe h samples language w = Some (r, w') ∧
    trace w' = trace w ++ calls ∧
    omap segment_index calls = seqZ 0 (engine_n_segments ctx run.2).
Proof.
  intros Hh Hs%elems_at_Some Hl%text_at_Some ctx run Hrun.
  eexists _, _, _. split; [by apply transcribe_success_run|].
  cbn [trace]. split; [reflexivity|].
  fold ctx run. unfold success_calls.
  rewrite omap_app. cbn. rewrite omap_app, segment_reads_indices. cbn.
  rewrite app_nil_r.
  destruct (decide (0 ≤ engine_n_segments ctx run.2)) as [Hpos|Hneg].
  - by rewrite Z2Nat.id.
  - replace (Z.to_nat (engine_n_segments ctx run.2)) with 0%nat by lia.
    unfold seqZ.
    by replace (Z.to_nat (engine_n_segments ctx run.2)) with 0%nat by lia.
Qed.

(** X2. When the inference run succeeds and the engine reports a negative
    number of segments, the call returns an empty string and reads no
    segment text. *)
Theorem transcribe_negative_segment_count
    h samples language w elems chars :
  h ≠ 0 →
  elems_at w samples = Some elems →
  text_at w language = Some chars →
  let ctx := ptr_of_jlong h in
  let run := engine_full ctx (transcribe_params chars) elems
               (Z.of_nat (length elems)) (engine w) in
  run.1 = 0 →
  engine_n_segments ctx run.2 < 0 →
  ∃ r w' calls,
    whisperTranscribe h samples language w = Some (r, w') ∧
    text_at w' r = Some "" ∧
    trace w' = trace w ++ calls ∧
    Forall (λ ev, segment_index ev = None) calls.
Proof.
  intros Hh Hs%elems_at_Some Hl%text_at_Some ctx run Hrun Hneg.
  eexists _, _, _. split; [by apply transcribe_success_run|].
  rewrite text_at_new. cbn [trace]. fold ctx run. unfold success_calls.
  replace (Z.to_nat (engine_n_segments ctx run.2)) with 0%nat by lia.
  repeat split. by repeat constructor.
Qed.

(** X3. [whisperTranscribe] never creates or destroys a context: on every
    path (zero handle, failed run, successful run) none of its calls is
    [whisper_context_default_params], [whisper_init_from_file_with_params]
    or [whisper_free]. *)
Theorem transcribe_keeps_context_alive h samples language w elems chars :
  elems_at w samples = Some elems →
  text_at w language = Some chars →
  ∃ r w' calls,
    whisperTranscribe h samples language w = Some (r, w') ∧
    trace w' = trace w ++ calls ∧
    Forall (λ ev, is_lifetime_call ev = false) calls.
Proof.
  intros Hs%elems_at_Some Hl%text_at_Some.
  destruct (decide (h = 0)) as [->|Hh].
  - eexists _, _, _. split; [apply transcribe_zero_run|].
    cbn [trace]. split; [reflexivity|]. by repeat constructor.
  - eexists _, _, _. split; [by apply transcribe_nonzero_run|].
    cbn [trace]. split; [reflexivity|].
    apply Forall_app. split; [by repeat constructor|].
    by apply transcribe_tail_Forall.
Qed.

(** X4. On a non-zero handle the inference call is made while both
    borrowed views are outstanding: the sample buffer and the language
    characters it receives are the ones borrowed before it, and no release
    precedes it. Every call after the two releases is a segment read, a log
    line or the creation of the result, none of which takes the buffer. *)
Theorem transcribe_infers_while_borrowed h samples tag w elems chars :
  h ≠ 0 →
  elems_at w samples = Some elems →
  text_at w tag = Some chars →
  ∃ r w' acquired params status rest,
    whisperTranscribe h samples tag w = Some (r, w') ∧
    trace w' =
      trace w ++ acquired
      ++ [EvWhisperFull (ptr_of_jlong h) params elems
            (Z.of_nat (length elems)) status]
      ++ rest ∧
    language params = chars ∧
    In (EvGetFloatArrayElements samples elems) acquired ∧
    In (EvGetStringUTFChars tag chars) acquired ∧
    Forall (λ ev, is_release_call ev = false) acquired ∧
    Forall (λ ev, is_inference_call ev = false) acquired ∧
    Forall (λ ev, is_inference_call ev = false) rest.
Proof.
  intros Hh Hs%elems_at_Some Hl%text_at_Some.
  set (ctx := ptr_of_jlong h).
  set (run := engine_full ctx (transcribe_params chars) elems
                (Z.of_nat (length elems)) (engine w)).
  set (r := fresh (dom (heap w))).
  eexists r, _, (take 5 (transcribe_calls ctx samples tag elems chars run.1)),
    (transcribe_params chars), run.1,
    (drop 6 (transcribe_calls ctx samples tag elems chars run.1)
     ++ transcribe_tail ctx run.1 run.2 r).
  split; [by apply transcribe_nonzero_run|].
  cbn [trace]. split; [reflexivity|]. split; [reflexivity|].
  split; [simpl; tauto|]. split; [simpl; tauto|].
  split; [by repeat constructor|]. split; [by repeat constructor|].
  apply Forall_app. split; [by repeat constructor|].
  by apply transcribe_tail_Forall.
Qed.

(** X5. The handle of a context is a [jlong], and converting it back gives
    the context's address: what [whisperInit] returns for a context is
    what [whisperTranscribe] and [whisperFree] recover it from. *)
Theorem handle_of_context_round_trip (p : ptr) :
  0 ≤ p < 2 ^ 64 →
  - 2 ^ 63 ≤ jlong_of_ptr p < 2 ^ 63 ∧ ptr_of_jlong (jlong_of_ptr p) = p.
Proof.
  intros Hp. split; [|by apply ptr_of_jlong_of_ptr].
  unfold jlong_of_ptr.
  pose proof (Z.mod_pos_bound (p + 2 ^ 63) (2 ^ 64)). lia.
Qed.

(** X6. Every [jlong] is the handle of exactly one address: converting a
    handle to a context pointer and back gives the handle, the pointer is
    a 64-bit address, and it is null only for the zero handle. *)
Theorem context_of_handle_round_trip (h : jlong) :
  - 2 ^ 63 ≤ h < 2 ^ 63 →
  0 ≤ ptr_of_jlong h < 2 ^ 64 ∧
  jlong_of_ptr (ptr_of_jlong h) = h ∧
  (ptr_of_jlong h = 0 ↔ h = 0).
Proof.
  intros Hh. unfold jlong_of_ptr, ptr_of_jlong.
  destruct (decide (0 ≤ h)) as [Hpos|Hneg].
  - rewrite (Z.mod_small h) by lia. rewrite Z.mod_small by lia. lia.
  - assert (h `mod` 2 ^ 64 = h + 2 ^ 64) as ->
      by (symmetry; apply (Z.mod_unique _ _ (-1)); lia).
    assert ((h + 2 ^ 64 + 2 ^ 63) `mod` 2 ^ 64 = h + 2 ^ 63) as ->
      by (symmetry; apply (Z.mod_unique _ _ 1); lia).
    lia.
Qed.

Lemma ptr_of_jlong_nonnull (h : jlong) :
  - 2 ^ 63 ≤ h < 2 ^ 63 → h ≠ 0 → ptr_of_jlong h ≠ 0.
Proof.
  intros Hh Hne. unfold ptr_of_jlong.
  destruct (decide (0 ≤ h)) as [Hpos|Hneg].
  - rewrite Z.mod_small by lia. lia.
  - assert (h `mod` 2 ^ 64 = h + 2 ^ 64) as ->
      by (symmetry; apply (Z.mod_unique _ _ (-1)); lia).
    lia.
Qed.

(** X7. For a non-zero handle, every call [whisperTranscribe] and
    [whisperFree] make into the engine for a context is for the context the
    handle names, and that pointer is not null. *)
Theorem bridge_passes_the_named_context h samples language w elems chars :
  - 2 ^ 63 ≤ h < 2 ^ 63 →
  h ≠ 0 →
  elems_at w samples = Some elems →
  text_at w language = Some chars →
  ∃ r w1 calls1 w2 calls2,
    whisperTranscribe h samples language w = Some (r, w1) ∧
    trace w1 = trace w ++ calls1 ∧
    whisperFree h w = Some ((), w2) ∧
    trace w2 = trace w ++ calls2 ∧
    Forall (λ ev, ∀ ctx, event_ctx ev = Some ctx →
                         ctx = ptr_of_jlong h ∧ ctx ≠ 0)
      (calls1 ++ calls2).
Proof.
  intros Hrange Hh Hs%elems_at_Some Hl%text_at_Some.
  pose proof (ptr_of_jlong_nonnull h Hrange Hh) as Hnonnull.
  eexists _, _, _, _, _. split; [by apply transcribe_nonzero_run|].
  cbn [trace]. split; [reflexivity|].
  split; [by apply free_run|]. cbn [trace]. split; [reflexivity|].
  assert (∀ ev : event,
            event_ctx ev = None ∨ event_ctx ev = Some (ptr_of_jlong h) →
            ∀ ctx, event_ctx ev = Some ctx → ctx = ptr_of_jlong h ∧ ctx ≠ 0)
    as Hnamed.
  { intros ev [Hev|Hev] ctx Hctx; rewrite Hev in Hctx; [discriminate|].
    injection Hctx as <-. by split. }
  eapply Forall_impl; [|exact Hnamed].
  rewrite !Forall_app. split; [split|].
  - repeat (apply Forall_cons_2; [cbn; tauto|]). apply Forall_nil_2.
  - apply transcribe_tail_Forall; intros; cbn; tauto.
  - repeat (apply Forall_cons_2; [cbn; tauto|]). apply Forall_nil_2.
Qed.

(** X8. [whisperInit] asks the engine exactly once for a context, with the
    characters of the model path it was given and with the engine's default
    context parameters in which only [use_gpu] is changed, to [true]; it
    does so while the path is borrowed, and gives the path back
    afterwards. *)
Theorem init_loads_path_with_gpu model_path w path :
  text_at w model_path = Some path →
  ∃ h w' before cparams ctx after,
    whisperInit model_path w = Some (h, w') ∧
    trace w' =
      trace w ++ before ++ [EvWhisperInit path cparams ctx] ++ after ∧
    use_gpu cparams = true ∧
    cparams_other cparams = cparams_other engine_context_default_params ∧
    In (EvGetStringUTFChars model_path path) before ∧
    Forall (λ ev, is_release_call ev = false) before ∧
    In (EvReleaseStringUTFChars model_path path) after ∧
    Forall (λ ev, is_init_call ev = false) (before ++ after).
Proof.
  intros Hp%text_at_Some.
  set (ctx := (engine_init path init_cparams (engine w)).1).
  eexists _, _, (take 3 (init_calls model_path path ctx)), init_cparams, ctx,
    (drop 4 (init_calls model_path path ctx)).
  split; [by apply init_run|].
  cbn [trace]. split; [reflexivity|]. split; [reflexivity|].
  split; [reflexivity|]. split; [simpl; tauto|].
  split; [by repeat constructor|]. split; [simpl; tauto|].
  cbn. repeat constructor. by case_decide.
Qed.

Lemma filter_none {A} (f : A → bool) (l : list A) :
  Forall (λ x, f x = false) l → List.filter f l = [].
Proof.
  induction 1 as [|x l Hx _ IH]; [done|]. simpl. by rewrite Hx.
Qed.

Lemma load_transcribe_release_run
    model_path samples language w path elems chars :
  heap w !! model_path = Some (JString path) →
  heap w !! samples = Some (JFloatArray elems) →
  heap w !! language = Some (JString chars) →
  let loaded := engine_init path init_cparams (engine w) in
  let ctx := loaded.1 in
  let run := engine_full ctx (transcribe_params chars) elems
               (Z.of_nat (length elems)) loaded.2 in
  let r := fresh (dom (heap w)) in
  0 < ctx < 2 ^ 64 →
  load_transcribe_release model_path samples language w =
  Some (r, mk_World (<[r := JString (transcribe_text ctx run.1 run.2)]> (heap w))
             (utf_borrows w) (float_borrows w) (engine_free ctx run.2)
             (trace w
              ++ init_calls model_path path ctx
              ++ transcribe_calls ctx samples language elems chars run.1
              ++ transcribe_tail ctx run.1 run.2 r
              ++ [ EvWhisperFree ctx;
                   EvLog ANDROID_LOG_INFO LOG_TAG "Whisper context freed" [] ])).
Proof.
  intros Hp Hs Hl loaded ctx run r Hctx.
  assert (jlong_of_ptr ctx ≠ 0) as Hh
    by (rewrite jlong_of_ptr_zero; lia).
  assert (ptr_of_jlong (jlong_of_ptr ctx) = ctx) as Hback
    by (apply ptr_of_jlong_of_ptr; lia).
  unfold load_transcribe_release, mbind, JNI_bind.
  rewrite (init_run _ _ _ Hp). fold loaded ctx.
  rewrite decide_False by lia.
  erewrite transcribe_nonzero_run; [|exact Hh|exact Hs|exact Hl].
  cbn [heap utf_borrows float_borrows engine trace].
  rewrite (free_run _ _ Hh). cbn [heap utf_borrows float_borrows engine trace].
  rewrite Hback. fold run r. unfold mret, JNI_ret.
  by rewrite <- !app_assoc.
Qed.

(** X9. Loading a model the engine accepts, transcribing once with the
    handle obtained and releasing that handle drives the engine through
    one context: the context the engine created is the one the inference
    call, every segment read and the final [whisper_free] are made for,
    with exactly one call to create it, one inference call and one call to
    free it; no borrowed view is left outstanding. *)
Theorem load_transcribe_release_one_context
    model_path samples tag w path elems chars :
  text_at w model_path = Some path →
  elems_at w samples = Some elems →
  text_at w tag = Some chars →
  let loaded := engine_init path init_cparams (engine w) in
  0 < loaded.1 < 2 ^ 64 →
  ∃ r w' calls params status,
    load_transcribe_release model_path samples tag w = Some (r, w') ∧
    trace w' = trace w ++ calls ∧
    List.filter is_init_call calls
      = [EvWhisperInit path init_cparams loaded.1] ∧
    List.filter is_inference_call calls
      = [EvWhisperFull loaded.1 params elems (Z.of_nat (length elems))
           status] ∧
    language params = chars ∧
    List.filter is_free_event calls = [EvWhisperFree loaded.1] ∧
    Forall (λ ev, event_ctx ev = None ∨ event_ctx ev = Some loaded.1) calls ∧
    utf_borrows w' = utf_borrows w ∧
    float_borrows w' = float_borrows w.
Proof.
  intros Hp%text_at_Some Hs%elems_at_Some Hl%text_at_Some loaded Hctx.
  eexists _, _, _, (transcribe_params chars), _.
  split; [by apply load_transcribe_release_run|].
  cbn [trace utf_borrows float_borrows]. fold loaded.
  split; [reflexivity|].
  set (run := engine_full loaded.1 (transcribe_params chars) elems
                (Z.of_nat (length elems)) loaded.2).
  set (r := fresh (dom (heap w))).
  assert (∀ f : event → bool,
            (∀ n, f (EvWhisperNSegments loaded.1 n) = false) →
            (∀ i text, f (EvWhisperSegmentText loaded.1 i text) = false) →
            (∀ prio t fmt args, f (EvLog prio t fmt args) = false) →
            (∀ text, f (EvNewStringUTF text r) = false) →
            List.filter f (transcribe_tail loaded.1 run.1 run.2 r) = [])
    as Htail
    by (intros f ? ? ? ?; apply filter_none; by apply transcribe_tail_Forall).
  repeat split.
  - rewrite !List.filter_app, Htail by done. cbn. by case_decide.
  - rewrite !List.filter_app, Htail by done. cbn. by case_decide.
  - rewrite !List.filter_app, Htail by done. cbn. by case_decide.
  - rewrite !Forall_app. repeat split.
    + repeat (apply Forall_cons_2; [cbn; try case_decide; cbn; tauto|]).
      apply Forall_nil_2.
    + repeat (apply Forall_cons_2; [cbn; tauto|]). apply Forall_nil_2.
    + apply transcribe_tail_Forall; intros; cbn; tauto.
    + repeat (apply Forall_cons_2; [cbn; tauto|]). apply Forall_nil_2.
Qed.

Lemma load_transcribe_release_null_run
    model_path samples language w path :
  heap w !! model_path = Some (JString path) →
  let loaded := engine_init path init_cparams (engine w) in
  let r := fresh (dom (heap w)) in
  loaded.1 = 0 →
  load_transcribe_release model_path samples language w =
  Some (r, mk_World (<[r := JString ""]> (heap w))
             (utf_borrows w) (float_borrows w) loaded.2
             (trace w
              ++ init_calls model_path path 0
              ++ [ EvLog ANDROID_LOG_ERROR LOG_TAG "Invalid context pointer" [];
                   EvNewStringUTF "" r ])).
Proof.
  intros Hp loaded r Hnull.
  unfold load_transcribe_release, mbind, JNI_bind.
  rewrite (init_run _ _ _ Hp). fold loaded. rewrite Hnull.
  rewrite decide_True by reflexivity.
  rewrite transcribe_zero_run, free_zero_run.
  cbn [heap utf_borrows float_borrows engine trace].
  unfold mret, JNI_ret. by rewrite <- !app_assoc.
Qed.

(** X10. When the engine cannot load the model, the same sequence (load,
    transcribe with the handle obtained, release it) returns an empty
    string, whatever the sample and language references are, and the only
    calls into the engine are the two made while loading: no inference runs
    and nothing is freed. *)
Theorem load_transcribe_release_after_failed_load
    model_path samples language w path :
  text_at w model_path = Some path →
  let loaded := engine_init path init_cparams (engine w) in
  loaded.1 = 0 →
  ∃ r w' calls,
    load_transcribe_release model_path samples language w = Some (r, w') ∧
    text_at w' r = Some "" ∧
    trace w' = trace w ++ calls ∧
    List.filter is_engine_event calls
      = [EvWhisperContextDefaultParams; EvWhisperInit path init_cparams 0] ∧
    engine w' = loaded.2 ∧
    utf_borrows w' = utf_borrows w ∧
    float_borrows w' = float_borrows w.
Proof.
  intros Hp%text_at_Some loaded Hnull.
  eexists _, _, _. split; [by apply load_transcribe_release_null_run|].
  rewrite text_at_new. cbn [trace engine utf_borrows float_borrows].
  by repeat split.
Qed.

Lemma world_preserved_refl w : world_preserved w w.
Proof. repeat split; [done|]. exists []. by rewrite app_nil_r. Qed.

Lemma world_preserved_trans w1 w2 w3 :
  world_preserved w1 w2 → world_preserved w2 w3 → world_preserved w1 w3.
Proof.
  intros (Hu1 & Hf1 & Hh1 & c1 & Ht1) (Hu2 & Hf2 & Hh2 & c2 & Ht2).
  repeat split; [congruence|congruence|eauto|].
  exists (c1 ++ c2). by rewrite Ht2, Ht1, app_assoc.
Qed.

Lemma world_preserved_new_string w text e tr :
  world_preserved w
    (mk_World (<[fresh (dom (heap w)) := JString text]> (heap w))
       (utf_borrows w) (float_borrows w) e (trace w ++ tr)).
Proof.
  repeat split; cbn [heap trace]; [|by eexists].
  intros k o Hk. rewrite lookup_insert_ne; eauto using fresh_not_mapped.
Qed.

Lemma init_inv model_path w h w' :
  whisperInit model_path w = Some (h, w') →
  ∃ path, heap w !! model_path = Some (JString path).
Proof.
  destruct (heap w !! model_path) as [[path|l]|] eqn:Hp; [by eauto|..];
    unfold Java_com_localwhisper_android_transcription_WhisperManager_whisperInit,
      mbind, JNI_bind, GetStringUTFChars;
    by rewrite Hp.
Qed.

Lemma transcribe_inv h samples language w r w' :
  h ≠ 0 →
  whisperTranscribe h samples language w = Some (r, w') →
  ∃ elems chars,
    heap w !! samples = Some (JFloatArray elems) ∧
    heap w !! language = Some (JString chars).
Proof.
  intros Hh.
  unfold Java_com_localwhisper_android_transcription_WhisperManager_whisperTranscribe.
  rewrite decide_False by exact Hh. unfold mbind, JNI_bind.
  unfold GetArrayLength at 1.
  destruct (heap w !! samples) as [[c|elems]|] eqn:Hs; [done| |done].
  unfold GetFloatArrayElements at 1. unfold_world. rewrite Hs.
  unfold LOGI at 1, __android_log_print at 1.
  unfold GetStringUTFChars at 1. unfold_world.
  destruct (heap w !! language) as [[chars|l]|] eqn:Hl; [by eauto|done..].
Qed.

Lemma run_call_preserves c w w' :
  run_call c w = Some ((), w') → world_preserved w w'.
Proof.
  destruct c as [model_path|h samples language|h];
    unfold run_call, mbind, JNI_bind.
  - destruct (whisperInit model_path w) as [[h w1]|] eqn:Hrun; [|done].
    intros [= <-]. destruct (init_inv _ _ _ _ Hrun) as [path Hp].
    rewrite (init_run _ _ _ Hp) in Hrun. injection Hrun as _ <-.
    repeat split; cbn [heap trace]; [done|by eexists].
  - destruct (whisperTranscribe h samples language w) as [[r w1]|] eqn:Hrun;
      [|done].
    intros [= <-]. destruct (decide (h = 0)) as [->|Hh].
    + rewrite transcribe_zero_run in Hrun. injection Hrun as _ <-.
      apply world_preserved_new_string.
    + destruct (transcribe_inv _ _ _ _ _ _ Hh Hrun) as (elems & chars & Hs & Hl).
      rewrite (transcribe_nonzero_run _ _ _ _ _ _ Hh Hs Hl) in Hrun.
      injection Hrun as _ <-. apply world_preserved_new_string.
  - destruct (decide (h = 0)) as [->|Hh].
    + rewrite free_zero_run. intros [= <-]. apply world_preserved_refl.
    + rewrite (free_run _ _ Hh). intros [= <-].
      repeat split; cbn [heap trace]; [done|by eexists].
Qed.

(** X11. Whatever calls of the three entry points are made one after the
    other, with whatever handles and references, if they all return then
    the views borrowed from the caller are all given back, every object
    that was in the Java heap is still there unchanged, and the earlier
    calls on record are untouched. *)
Theorem run_calls_preserve_world cs w w' :
  run_calls cs w = Some ((), w') → world_preserved w w'.
Proof.
  revert w. induction cs as [|c cs IH]; intros w.
  - intros [= <-]. apply world_preserved_refl.
  - cbn [run_calls]. unfold mbind, JNI_bind.
    destruct (run_call c w) as [[[] w1]|] eqn:Hc; [|done].
    intros Hcs. eapply world_preserved_trans.
    + exact (run_call_preserves _ _ _ Hc).
    + by apply IH.
Qed.

(** X12. [whisperFree] keeps no record of what it has released: called
    twice with the same non-zero handle it asks the engine twice to free
    the same context. *)
Theorem free_twice_frees_twice h w :
  h ≠ 0 →
  ∃ w' calls,
    run_calls [CallFree h; CallFree h] w = Some ((), w') ∧
    trace w' = trace w ++ calls ∧
    List.filter is_free_event calls
      = [EvWhisperFree (ptr_of_jlong h); EvWhisperFree (ptr_of_jlong h)] ∧
    engine w'
      = engine_free (ptr_of_jlong h) (engine_free (ptr_of_jlong h) (engine w)).
Proof.
  intros Hh. eexists _, _. split.
  - cbn [run_calls run_call]. unfold mbind, JNI_bind.
    rewrite (free_run _ _ Hh), (free_run _ _ Hh).
    cbn [heap utf_borrows float_borrows engine trace]. reflexivity.
  - cbn [trace engine]. rewrite <- app_assoc. by repeat split.
Qed.

(** X13. Transcripts do not accumulate across calls: a second call on the
    same handle and inputs returns the text of the second inference run
    only, in a new string, and the string the first call returned still
    holds the first transcript. The second run starts from the engine
    state the first one left. *)
Theorem transcribe_twice_independent_results
    h samples language w elems chars :
  h ≠ 0 →
  elems_at w samples = Some elems →
  text_at w language = Some chars →
  let ctx := ptr_of_jlong h in
  let n := Z.of_nat (length elems) in
  let run1 := engine_full ctx (transcribe_params chars) elems n (engine w) in
  let run2 := engine_full ctx (transcribe_params chars) elems n run1.2 in
  ∃ r1 w1 r2 w2,
    whisperTranscribe h samples language w = Some (r1, w1) ∧
    whisperTranscribe h samples language w1 = Some (r2, w2) ∧
    r1 ≠ r2 ∧
    text_at w2 r1 = Some (transcribe_text ctx run1.1 run1.2) ∧
    text_at w2 r2 = Some (transcribe_text ctx run2.1 run2.2) ∧
    engine w2 = run2.2.
Proof.
  intros Hh Hs%elems_at_Some Hl%text_at_Some ctx n run1 run2.
  set (r1 := fresh (dom (heap w))).
  set (h1 := <[r1 := JString (transcribe_text ctx run1.1 run1.2)]> (heap w)).
  assert (fresh (dom h1) ≠ r1) as Hr
    by (apply (fresh_not_mapped h1 r1 (JString (transcribe_text ctx run1.1 run1.2)));
        apply lookup_insert_eq).
  eexists r1, _, (fresh (dom h1)), _.
  split; [by apply transcribe_nonzero_run|].
  split.
  - apply transcribe_nonzero_run; [done|..]; cbn [heap]; fold ctx n run1 r1 h1;
      unfold h1; rewrite lookup_insert_ne; eauto using fresh_not_mapped.
  - cbn [engine]. fold ctx n run1 r1 h1 run2.
    split; [done|]. rewrite text_at_new. split; [|done].
    unfold text_at. cbn [heap]. rewrite lookup_insert_ne by done.
    unfold h1. by rewrite lookup_insert_eq.
Qed.

(** X14. The status the return value drops is kept in the log: on a
    non-zero handle a failed inference run writes exactly one error line,
    carrying the engine's status code, and a successful run writes none. *)
Theorem transcribe_logs_failure_status h samples language w elems chars :
  h ≠ 0 →
  elems_at w samples = Some elems →
  text_at w language = Some chars →
  let ctx := ptr_of_jlong h in
  let run := engine_full ctx (transcribe_params chars) elems
               (Z.of_nat (length elems)) (engine w) in
  ∃ r w' calls,
    whisperTranscribe h samples language w = Some (r, w') ∧
    trace w' = trace w ++ calls ∧
    List.filter is_error_log calls =
      if decide (run.1 = 0) then []
      else [EvLog ANDROID_LOG_ERROR LOG_TAG
              "Transcription failed with code: %d" [ArgInt run.1]].
Proof.
  intros Hh Hs%elems_at_Some Hl%text_at_Some ctx run.
  eexists _, _, _. split; [by apply transcribe_nonzero_run|].
  cbn [trace]. split; [reflexivity|]. fold ctx run.
  rewrite List.filter_app. cbn [transcribe_calls List.filter is_error_log app].
  unfold transcribe_tail, success_calls, failure_calls.
  destruct (decide (run.1 = 0)) as [Hrun|Hrun]; [|done].
  cbn [List.filter is_error_log]. rewrite List.filter_app.
  rewrite (filter_none is_error_log (segment_reads _ _ _ _)); [done|].
  by apply segment_reads_Forall.
Qed.

End BridgeFacts.

(** ** Runs on the small engine *)

Example toy_transcribe_speech :
  (λ rw, text_at rw.2 rw.1) <$> whisperTranscribe 4096 1 2 toy_world
  = Some (Some " en en").
Proof. vm_compute. reflexivity. Qed.

Example toy_transcribe_zero_handle :
  (λ rw, (text_at rw.2 rw.1, List.filter is_engine_event (trace rw.2)))
    <$> whisperTranscribe 0 1 2 toy_world
  = Some (Some "", []).
Proof. vm_compute. reflexivity. Qed.

Example toy_transcribe_nothing :
  (λ rw, text_at rw.2 rw.1) <$> whisperTranscribe 4096 4 2 toy_world
  = Some (Some "").
Proof. vm_compute. reflexivity. Qed.

Example toy_transcribe_silence :
  (λ rw, text_at rw.2 rw.1) <$> whisperTranscribe 4096 5 2 toy_world
  = Some (Some "").
Proof. vm_compute. reflexivity. Qed.

Example toy_init_then_free :
  (whisperInit 3 toy_world ≫= λ '(h, w), whisperFree h w) ≫= (λ '(_, w),
     Some (List.filter is_engine_event (trace w)))
  = Some [ EvWhisperContextDefaultParams;
           EvWhisperInit "/sdcard/ggml-tiny.bin"
             (mk_whisper_context_params true ()) 4096;
           EvWhisperFree 4096 ].
Proof. vm_compute. reflexivity. Qed.

(** Speech on a loaded context: two segments, returned joined. *)
Lemma transcribe_concatenates_segments_witness :
  ∃ r w',
    whisperTranscribe 4096 1 2 toy_world = Some (r, w') ∧
    text_at w' r = Some " en en".
Proof.
  apply (transcribe_concatenates_segments 4096 1 2 toy_world
           [S754_nan; S754_zero false; S754_nan] "en" [" en"; " en"]).
  - lia.
  - reflexivity.
  - reflexivity.
  - reflexivity.
  - reflexivity.
  - intros [|[|[|i]]] s Hs; simpl in Hs; try discriminate Hs;
      injection Hs as <-; reflexivity.
Defined.

(** An empty sample buffer: the toy engine answers [-1]. *)
Lemma transcribe_engine_failure_witness :
  ∃ r w' calls,
    whisperTranscribe 4096 4 2 toy_world = Some (r, w') ∧
    text_at w' r = Some "" ∧
    heap w' = <[r := JString ""]> (heap toy_world) ∧
    trace w' = trace toy_world ++ calls ∧
    Forall (λ ev, is_segment_read ev = false) calls.
Proof.
  apply (transcribe_engine_failure 4096 4 2 toy_world [] "en").
  - lia.
  - reflexivity.
  - reflexivity.
  - intros Hstatus. vm_compute in Hstatus. discriminate Hstatus.
Defined.

(** Loading the model at reference 3. *)
Lemma init_zero_iff_engine_fails_witness :
  ∃ h w',
    whisperInit 3 toy_world = Some (h, w') ∧
    (h = 0 ↔ 4096 = 0) ∧
    (4096 ≠ 0 → ptr_of_jlong h = 4096) ∧
    heap w' = heap toy_world ∧
    utf_borrows w' = utf_borrows toy_world ∧
    float_borrows w' = float_borrows toy_world ∧
    engine w' = [].
Proof.
  apply (init_zero_iff_engine_fails 3 toy_world "/sdcard/ggml-tiny.bin").
  - reflexivity.
  - vm_compute. split; [discriminate|reflexivity].
Defined.

Lemma transcribe_fixed_policy_witness :
  ∃ r w' calls params status,
    whisperTranscribe 4096 1 2 toy_world = Some (r, w') ∧
    trace w' = trace toy_world ++ calls ∧
    List.filter is_inference_call calls =
      [EvWhisperFull 4096 params [S754_nan; S754_zero false; S754_nan] 3
         status] ∧
    strategy params = WHISPER_SAMPLING_GREEDY ∧
    translate params = false ∧
    single_segment params = false ∧
    no_timestamps params = true ∧
    n_threads params = 4 ∧
    print_progress params = false ∧
    print_special params = false ∧
    print_realtime params = false ∧
    print_timestamps params = false ∧
    language params = "en".
Proof.
  apply (transcribe_fixed_policy 4096 1 2 toy_world
           [S754_nan; S754_zero false; S754_nan] "en").
  - reflexivity.
  - lia.
  - reflexivity.
  - reflexivity.
Defined.

Lemma transcribe_releases_borrows_witness :
  ∃ r w' before after text,
    whisperTranscribe 4096 1 2 toy_world = Some (r, w') ∧
    trace w' =
      trace toy_world ++ before
      ++ [ EvReleaseFloatArrayElements 1
             [S754_nan; S754_zero false; S754_nan] 0;
           EvReleaseStringUTFChars 2 "en" ]
      ++ after ∧
    In (EvGetFloatArrayElements 1 [S754_nan; S754_zero false; S754_nan])
      before ∧
    In (EvGetStringUTFChars 2 "en") before ∧
    last after = Some (EvNewStringUTF text r) ∧
    float_borrows w' = float_borrows toy_world ∧
    utf_borrows w' = utf_borrows toy_world.
Proof.
  apply (transcribe_releases_borrows 4096 1 2 toy_world
           [S754_nan; S754_zero false; S754_nan] "en").
  - lia.
  - reflexivity.
  - reflexivity.
Defined.

(** Speech twice: the small engine holds the same two segments after
    either run. *)
Lemma transcribe_twice_same_transcript_witness :
  ∃ r1 w1 r2 w2 text,
    whisperTranscribe 4096 1 2 toy_world = Some (r1, w1) ∧
    whisperTranscribe 4096 1 2 w1 = Some (r2, w2) ∧
    text_at w1 r1 = Some text ∧
    text_at w2 r2 = Some text.
Proof.
  apply (transcribe_twice_same_transcript 4096 1 2 toy_world
           [S754_nan; S754_zero false; S754_nan] "en").
  - lia.
  - reflexivity.
  - reflexivity.
  - reflexivity.
  - reflexivity.
  - intros i Hi. reflexivity.
Defined.

(** Silence: the run succeeds and there is no segment. *)
Lemma transcribe_empty_three_ways_witness :
  ∃ r w',
    whisperTranscribe 4096 5 2 toy_world = Some (r, w') ∧
    text_at w' r = Some "" ∧
    r = fresh (dom (heap toy_world)) ∧
    heap w' = <[r := JString ""]> (heap toy_world).
Proof.
  apply (transcribe_empty_three_ways 4096 5 2 toy_world
           [S754_zero false] "en").
  right. split; [lia|]. split; [reflexivity|]. split; [reflexivity|].
  right. split; reflexivity.
Defined.

Lemma transcribe_frame_witness :
  ∃ r w',
    whisperTranscribe 4096 1 2 toy_world = Some (r, w') ∧
    elems_at w' 1 = Some [S754_nan; S754_zero false; S754_nan] ∧
    text_at w' 2 = Some "en" ∧
    (∀ k o, heap toy_world !! k = Some o → heap w' !! k = Some o).
Proof.
  apply (transcribe_frame 4096 1 2 toy_world
           [S754_nan; S754_zero false; S754_nan] "en").
  - reflexivity.
  - reflexivity.
Defined.

Lemma transcribe_reads_segments_in_range_witness :
  ∃ r w' calls,
    whisperTranscribe 4096 1 2 toy_world = Some (r, w') ∧
    trace w' = trace toy_world ++ calls ∧
    omap segment_index calls = [0; 1].
Proof.
  apply (transcribe_reads_segments_in_range 4096 1 2 toy_world
           [S754_nan; S754_zero false; S754_nan] "en").
  - lia.
  - reflexivity.
  - reflexivity.
  - reflexivity.
Defined.

Lemma transcribe_negative_segment_count_witness :
  ∃ r w' calls,
    whisperTranscribe 4096 1 2 negative_world = Some (r, w') ∧
    text_at w' r = Some "" ∧
    trace w' = trace negative_world ++ calls ∧
    Forall (λ ev, segment_index ev = None) calls.
Proof.
  apply (transcribe_negative_segment_count (W := negative_engine) 4096 1 2
           negative_world [S754_nan; S754_zero false; S754_nan] "en").
  - lia.
  - reflexivity.
  - reflexivity.
  - reflexivity.
  - reflexivity.
Defined.

Lemma transcribe_keeps_context_alive_witness :
  ∃ r w' calls,
    whisperTranscribe 4096 1 2 toy_world = Some (r, w') ∧
    trace w' = trace toy_world ++ calls ∧
    Forall (λ ev, is_lifetime_call ev = false) calls.
Proof.
  apply (transcribe_keeps_context_alive 4096 1 2 toy_world
           [S754_nan; S754_zero false; S754_nan] "en").
  - reflexivity.
  - reflexivity.
Defined.

Lemma transcribe_infers_while_borrowed_witness :
  ∃ r w' acquired params status rest,
    whisperTranscribe 4096 1 2 toy_world = Some (r, w') ∧
    trace w' =
      trace toy_world ++ acquired
      ++ [EvWhisperFull 4096 params [S754_nan; S754_zero false; S754_nan] 3
            status]
      ++ rest ∧
    language params = "en" ∧
    In (EvGetFloatArrayElements 1 [S754_nan; S754_zero false; S754_nan])
      acquired ∧
    In (EvGetStringUTFChars 2 "en") acquired ∧
    Forall (λ ev, is_release_call ev = false) acquired ∧
    Forall (λ ev, is_inference_call ev = false) acquired ∧
    Forall (λ ev, is_inference_call ev = false) rest.
Proof.
  apply (transcribe_infers_while_borrowed 4096 1 2 toy_world
           [S754_nan; S754_zero false; S754_nan] "en").
  - lia.
  - reflexivity.
  - reflexivity.
Defined.

(** An address in the upper half of the address space: its handle is
    negative. *)
Lemma handle_of_context_round_trip_witness :
  - 2 ^ 63 ≤ jlong_of_ptr (2 ^ 64 - 4096) < 2 ^ 63 ∧
  ptr_of_jlong (jlong_of_ptr (2 ^ 64 - 4096)) = 2 ^ 64 - 4096.
Proof.
  apply (handle_of_context_round_trip (2 ^ 64 - 4096)). lia.
Defined.

Lemma context_of_handle_round_trip_witness :
  0 ≤ ptr_of_jlong (-4096) < 2 ^ 64 ∧
  jlong_of_ptr (ptr_of_jlong (-4096)) = -4096 ∧
  (ptr_of_jlong (-4096) = 0 ↔ -4096 = 0).
Proof.
  apply (context_of_handle_round_trip (-4096)). lia.
Defined.

Lemma bridge_passes_the_named_context_witness :
  ∃ r w1 calls1 w2 calls2,
    whisperTranscribe 4096 1 2 toy_world = Some (r, w1) ∧
    trace w1 = trace toy_world ++ calls1 ∧
    whisperFree 4096 toy_world = Some ((), w2) ∧
    trace w2 = trace toy_world ++ calls2 ∧
    Forall (λ ev, ∀ ctx, event_ctx ev = Some ctx →
                         ctx = ptr_of_jlong 4096 ∧ ctx ≠ 0)
      (calls1 ++ calls2).
Proof.
  apply (bridge_passes_the_named_context 4096 1 2 toy_world
           [S754_nan; S754_zero false; S754_nan] "en").
  - lia.
  - lia.
  - reflexivity.
  - reflexivity.
Defined.

Lemma init_loads_path_with_gpu_witness :
  ∃ h w' before cparams ctx after,
    whisperInit 3 toy_world = Some (h, w') ∧
    trace w' =
      trace toy_world ++ before
      ++ [EvWhisperInit "/sdcard/ggml-tiny.bin" cparams ctx] ++ after ∧
    use_gpu cparams = true ∧
    cparams_other cparams = () ∧
    In (EvGetStringUTFChars 3 "/sdcard/ggml-tiny.bin") before ∧
    Forall (λ ev, is_release_call ev = false) before ∧
    In (EvReleaseStringUTFChars 3 "/sdcard/ggml-tiny.bin") after ∧
    Forall (λ ev, is_init_call ev = false) (before ++ after).
Proof.
  apply (init_loads_path_with_gpu 3 toy_world "/sdcard/ggml-tiny.bin").
  reflexivity.
Defined.

Lemma load_transcribe_release_one_context_witness :
  ∃ r w' calls params status,
    load_transcribe_release 3 1 2 toy_world = Some (r, w') ∧
    trace w' = trace toy_world ++ calls ∧
    List.filter is_init_call calls
      = [EvWhisperInit "/sdcard/ggml-tiny.bin" init_cparams 4096] ∧
    List.filter is_inference_call calls
      = [EvWhisperFull 4096 params [S754_nan; S754_zero false; S754_nan] 3
           status] ∧
    language params = "en" ∧
    List.filter is_free_event calls = [EvWhisperFree 4096] ∧
    Forall (λ ev, event_ctx ev = None ∨ event_ctx ev = Some 4096) calls ∧
    utf_borrows w' = utf_borrows toy_world ∧
    float_borrows w' = float_borrows toy_world.
Proof.
  apply (load_transcribe_release_one_context 3 1 2 toy_world
           "/sdcard/ggml-tiny.bin" [S754_nan; S754_zero false; S754_nan] "en").
  - reflexivity.
  - reflexivity.
  - reflexivity.
  - vm_compute. split; reflexivity.
Defined.

Lemma load_transcribe_release_after_failed_load_witness :
  ∃ r w' calls,
    load_transcribe_release 3 1 2 toy_world_no_model = Some (r, w') ∧
    text_at w' r = Some "" ∧
    trace w' = trace toy_world_no_model ++ calls ∧
    List.filter is_engine_event calls
      = [EvWhisperContextDefaultParams; EvWhisperInit "" init_cparams 0] ∧
    engine w' = [] ∧
    utf_borrows w' = utf_borrows toy_world_no_model ∧
    float_borrows w' = float_borrows toy_world_no_model.
Proof.
  apply (load_transcribe_release_after_failed_load 3 1 2 toy_world_no_model "").
  - reflexivity.
  - reflexivity.
Defined.

Lemma run_calls_preserve_world_witness :
  world_preserved toy_world toy_world_after.
Proof.
  apply (run_calls_preserve_world toy_calls toy_world toy_world_after).
  vm_compute. reflexivity.
Defined.

Lemma free_twice_frees_twice_witness :
  ∃ w' calls,
    run_calls [CallFree 4096; CallFree 4096] toy_world = Some ((), w') ∧
    trace w' = trace toy_world ++ calls ∧
    List.filter is_free_event calls = [EvWhisperFree 4096; EvWhisperFree 4096] ∧
    engine w' = [].
Proof.
  apply (free_twice_frees_twice 4096 toy_world). lia.
Defined.

Lemma transcribe_twice_independent_results_witness :
  ∃ r1 w1 r2 w2,
    whisperTranscribe 4096 1 2 toy_world = Some (r1, w1) ∧
    whisperTranscribe 4096 1 2 w1 = Some (r2, w2) ∧
    r1 ≠ r2 ∧
    text_at w2 r1 = Some " en en" ∧
    text_at w2 r2 = Some " en en" ∧
    engine w2 = [" en"; " en"].
Proof.
  apply (transcribe_twice_independent_results 4096 1 2 toy_world
           [S754_nan; S754_zero false; S754_nan] "en").
  - lia.
  - reflexivity.
  - reflexivity.
Defined.

(** An empty sample buffer: the small engine's status [-1] is logged. *)
Lemma transcribe_logs_failure_status_witness :
  ∃ r w' calls,
    whisperTranscribe 4096 4 2 toy_world = Some (r, w') ∧
    trace w' = trace toy_world ++ calls ∧
    List.filter is_error_log calls =
      [EvLog ANDROID_LOG_ERROR LOG_TAG
         "Transcription failed with code: %d" [ArgInt (-1)]].
Proof.
  apply (transcribe_logs_failure_status 4096 4 2 toy_world [] "en").
  - lia.
  - reflexivity.
  - reflexivity.
Defined.
